(** * PersonalDataInsights: the book store and location log of [main.py]

    A shallow embedding of the FastAPI service: two module-level lists
    ([BOOKS], [LOCATIONS]) of dict objects mirrored to JSON files, and the six
    route handlers that read and extend them.

    Python values are modelled as the code has them: a [float] is an IEEE-754
    binary64 number ([spec_float] at precision 53), a dict is a finite map from
    string keys, the dict objects live in a heap and the two lists hold
    references into it, so that [loc.copy()] and item assignment can be told
    apart from mutation of a stored record.  Handlers run in a state monad
    with Python exceptions. *)

From Stdlib Require Import ZArith NArith String Ascii List Lia Permutation.
From Stdlib Require Import Floats.SpecFloat.
From stdpp Require Import base option list gmap strings pretty sorting.

Local Open Scope Z_scope.

(** ** Python floats: IEEE-754 binary64 *)

Abbreviation float := spec_float.

Definition float_prec : Z := 53.
Definition float_emax : Z := 1024.

(** [float(n)] for a Python int [n]: round to nearest, ties to even. *)
Definition float_of_Z (n : Z) : float :=
  binary_normalize float_prec float_emax n 0 false.

Definition float_lt (x y : float) : bool := SFltb x y.
Definition float_eq (x y : float) : bool := SFeqb x y.
Definition float_mul (x y : float) : float := SFmul float_prec float_emax x y.
Definition float_truediv (x y : float) : float := SFdiv float_prec float_emax x y.

Definition float_is_zero (x : float) : bool :=
  match x with S754_zero _ => true | _ => false end.

Definition float_is_nan (x : float) : bool :=
  match x with S754_nan => true | _ => false end.

(** The order of the non-NaN floats as a lexicographic order on integer
    triples: class (-inf, negative, zero, positive, +inf), then exponent, then
    mantissa, the last two negated for negative numbers. *)
Definition float_rank (x : float) : Z * Z * Z :=
  match x with
  | S754_nan => (0, 0, 0)
  | S754_infinity true => (-2, 0, 0)
  | S754_infinity false => (2, 0, 0)
  | S754_zero _ => (0, 0, 0)
  | S754_finite true m e => (-1, - e, - Zpos m)
  | S754_finite false m e => (1, e, Zpos m)
  end.

Definition rank_lt (a b : Z * Z * Z) : Prop :=
  let '(c1, e1, m1) := a in
  let '(c2, e2, m2) := b in
  c1 < c2 \/ (c1 = c2 /\ (e1 < e2 \/ (e1 = e2 /\ m1 < m2))).

(** ** Exceptions and the two monads *)

Inductive exn :=
| HTTPException (status_code : Z) (detail : string)
| RequestValidationError (errors : list string)
| AttributeError (msg : string)
| IndexError
| KeyError (key : string)
| TypeError
| ValueError
| OverflowError
| ZeroDivisionError
| SystemError.

(** The status line FastAPI answers with when a handler raises. *)
Definition status_of (e : exn) : Z :=
  match e with
  | HTTPException c _ => c
  | RequestValidationError _ => 422
  | _ => 500
  end.

Inductive outcome (A : Type) :=
| Return (a : A)
| Raise (e : exn).
Arguments Return {A} a.
Arguments Raise {A} e.

#[global] Instance outcome_ret : MRet outcome := fun _ a => Return a.
#[global] Instance outcome_bind : MBind outcome := fun _ _ f m =>
  match m with
  | Return a => f a
  | Raise e => Raise e
  end.

(** ** Python values, dict objects *)

Inductive pyval :=
| VNone
| VFloat (f : float)
| VStr (s : string).

Abbreviation dict := (gmap string pyval).
Abbreviation ref := positive.

(** What attribute access on an object can yield besides a plain value. *)
Inductive pyobj :=
| OVal (v : pyval)
| OBoundMethod (name : string).

(** [a == b] between an attribute value and a str. *)
Definition py_eq_str (a : pyobj) (s : string) : bool :=
  match a with
  | OVal (VStr s') => String.eqb s' s
  | _ => false
  end.

(** [a < b]: floats by IEEE comparison, strs by code point, anything else
    is unorderable. *)
Definition py_lt (a b : pyval) : outcome bool :=
  match a, b with
  | VFloat x, VFloat y => Return (float_lt x y)
  | VStr x, VStr y => Return (String.ltb x y)
  | _, _ => Raise TypeError
  end.

(** [a / b] *)
Definition py_truediv (a b : pyval) : outcome pyval :=
  match a, b with
  | VFloat x, VFloat y =>
      if float_is_zero y then Raise ZeroDivisionError
      else Return (VFloat (float_truediv x y))
  | _, _ => Raise TypeError
  end.

(** [dir(dict)]: the attributes of the built-in dict type.  The keys of a
    dict are items, not attributes. *)
Definition dict_dir : list string :=
  [ "__class__"; "__class_getitem__"; "__contains__"; "__delattr__";
    "__delitem__"; "__dir__"; "__doc__"; "__eq__"; "__format__"; "__ge__";
    "__getattribute__"; "__getitem__"; "__getstate__"; "__gt__"; "__hash__";
    "__init__"; "__init_subclass__"; "__ior__"; "__iter__"; "__le__";
    "__len__"; "__lt__"; "__ne__"; "__new__"; "__or__"; "__reduce__";
    "__reduce_ex__"; "__repr__"; "__reversed__"; "__ror__"; "__setattr__";
    "__setitem__"; "__sizeof__"; "__str__"; "__subclasshook__"; "clear";
    "copy"; "fromkeys"; "get"; "items"; "keys"; "pop"; "popitem";
    "setdefault"; "update"; "values" ]%string.

Definition dict_getattr (name : string) : outcome pyobj :=
  if bool_decide (name ∈ dict_dir) then Return (OBoundMethod name)
  else Raise (AttributeError
    ("'dict' object has no attribute '" +:+ name +:+ "'")).

(** [l[i]] on a list: negative indices count from the end. *)
Definition list_getitem {A} (l : list A) (i : Z) : outcome A :=
  let n := Z.of_nat (length l) in
  let j := if i <? 0 then i + n else i in
  if (0 <=? j) && (j <? n) then
    match l !! Z.to_nat j with
    | Some x => Return x
    | None => Raise IndexError
    end
  else Raise IndexError.

(** ** Text: decimal and hexadecimal rendering *)

(** [str(n)] for an int. *)
Definition str_of_Z (n : Z) : string := pretty n.

(** [s.zfill(width)] for the digits of a non-negative number. *)
Definition zfill (width : nat) (s : string) : string :=
  String.concat "" (replicate (width - String.length s) "0"%string) +:+ s.

Definition hex_char (d : N) : ascii :=
  match d with
  | 0 => "0" | 1 => "1" | 2 => "2" | 3 => "3" | 4 => "4" | 5 => "5"
  | 6 => "6" | 7 => "7" | 8 => "8" | 9 => "9" | 10 => "a" | 11 => "b"
  | 12 => "c" | 13 => "d" | 14 => "e" | _ => "f"
  end%N%char.

(** The [width] low hexadecimal digits of [n], most significant first. *)
Fixpoint hex_digits (width : nat) (n : N) (acc : string) : string :=
  match width with
  | O => acc
  | S w => hex_digits w (n / 16)%N (String (hex_char (n mod 16)%N) acc)
  end.

(** ['%032x' % n] for [n] below [2^128]. *)
Definition format_032x (n : N) : string := hex_digits 32 n "".

Definition is_hex_char (c : ascii) : bool :=
  bool_decide (c ∈ list_ascii_of_string "0123456789abcdef").

(** A string of exactly 32 lowercase hexadecimal digits. *)
Definition is_hex_token (s : string) : bool :=
  Nat.eqb (String.length s) 32 && forallb is_hex_char (list_ascii_of_string s).

(** [sub in s] *)
Definition str_contains (s sub : string) : Prop :=
  exists pre post : string, s = pre +:+ sub +:+ post.

(** ** uuid: [uuid4().hex] from sixteen random bytes *)

(** [UUID(bytes=b, version=4).int], with [b] given as its big-endian value:
    the variant bits 62-63 become binary 10 and the version nibble 76-79
    becomes 4. *)
Definition uuid4_int (random_bytes : N) : N :=
  let int := (random_bytes mod 2 ^ 128)%N in
  let int := N.ldiff int (N.shiftl 0xc000 48) in
  let int := N.lor int (N.shiftl 0x8000 48) in
  let int := N.ldiff int (N.shiftl 0xf000 64) in
  N.lor int (N.shiftl 4 76).

Definition uuid4_hex (random_bytes : N) : string :=
  format_032x (uuid4_int random_bytes).

(** ** datetime: [datetime.fromtimestamp] and [isoformat] *)

Record datetime := mk_datetime {
  year : Z; month : Z; day : Z;
  hour : Z; minute : Z; second : Z; microsecond : Z }.

Definition MINYEAR : Z := 1.
Definition MAXYEAR : Z := 9999.
Definition time_t_min : Z := - 2 ^ 63.
Definition time_t_max : Z := 2 ^ 63 - 1.

(** [modf] of a finite float: the integral part (toward zero) and the
    fractional part, both with the sign of the argument; exact. *)
Definition float_modf (s : bool) (m : positive) (e : Z) : Z * float :=
  if 0 <=? e then (cond_Zopp s (Zpos m * 2 ^ e), S754_zero s)
  else
    let d := 2 ^ (- e) in
    (cond_Zopp s (Zpos m / d),
     binary_normalize float_prec float_emax (cond_Zopp s (Zpos m mod d)) e s).

(** Round a float to the nearest integer, ties to even. *)
Definition float_round_half_even (x : float) : Z :=
  match x with
  | S754_finite s m e =>
      if 0 <=? e then cond_Zopp s (Zpos m * 2 ^ e)
      else
        let d := 2 ^ (- e) in
        let q := Zpos m / d in
        let r := Zpos m mod d in
        cond_Zopp s
          match 2 * r ?= d with
          | Lt => q
          | Gt => q + 1
          | Eq => if Z.even q then q else q + 1
          end
  | _ => 0
  end.

(** A float timestamp as whole seconds and microseconds in [0, 10^6):
    the fractional part is scaled by [1e6] in float arithmetic and rounded
    half to even; NaN is a ValueError, a value outside [time_t] an
    OverflowError. *)
Definition double_to_timeval (d : float) : outcome (Z * Z) :=
  match d with
  | S754_nan => Raise ValueError
  | S754_infinity _ => Raise OverflowError
  | S754_zero _ => Return (0, 0)
  | S754_finite s m e =>
      let '(intpart, floatpart) := float_modf s m e in
      let us :=
        float_round_half_even (float_mul floatpart (float_of_Z 1000000)) in
      let '(intpart, us) :=
        if 1000000 <=? us then (intpart + 1, us - 1000000)
        else if us <? 0 then (intpart - 1, us + 1000000)
        else (intpart, us) in
      if (time_t_min <=? intpart) && (intpart <=? time_t_max)
      then Return (intpart, us)
      else Raise OverflowError
  end.

(** Day number (days since 1970-01-01) to proleptic Gregorian
    year, month, day. *)
Definition civil_from_days (z : Z) : Z * Z * Z :=
  let z := z + 719468 in
  let era := z / 146097 in
  let doe := z - era * 146097 in
  let yoe := (doe - doe / 1460 + doe / 36524 - doe / 146096) / 365 in
  let y := yoe + era * 400 in
  let doy := doe - (365 * yoe + yoe / 4 - yoe / 100) in
  let mp := (5 * doy + 2) / 153 in
  let d := doy - (153 * mp + 2) / 5 + 1 in
  let m := if mp <? 10 then mp + 3 else mp - 9 in
  (if m <=? 2 then y + 1 else y, m, d).

(** The inverse: year, month, day to day number. *)
Definition days_from_civil (y m d : Z) : Z :=
  let y := if m <=? 2 then y - 1 else y in
  let era := y / 400 in
  let yoe := y - era * 400 in
  let doy := (153 * (if 2 <? m then m - 3 else m + 9) + 2) / 5 + d - 1 in
  let doe := yoe * 365 + yoe / 4 - yoe / 100 + doy in
  era * 146097 + doe - 719468.

(** [datetime.fromtimestamp(t)] without tzinfo: the platform's local time
    ([utcoffset] gives the offset of local time from UTC, in seconds, at an
    instant), then the range check of the [datetime] constructor.  The C
    [localtime] reports a year that does not fit its [int] as an overflow. *)
Definition datetime_fromtimestamp (utcoffset : Z -> Z) (t : pyval)
  : outcome datetime :=
  match t with
  | VFloat d =>
      '(timet, us) ← double_to_timeval d;
      let local := timet + utcoffset timet in
      let '(y, m, dd) := civil_from_days (local / 86400) in
      let secs := local mod 86400 in
      if (- 2 ^ 31 <=? y - 1900) && (y - 1900 <? 2 ^ 31) then
        if (MINYEAR <=? y) && (y <=? MAXYEAR) then
          Return (mk_datetime y m dd (secs / 3600) (secs mod 3600 / 60)
                              (Z.min 59 (secs mod 60)) us)
        else Raise ValueError
      else Raise OverflowError
  | _ => Raise TypeError
  end.

Definition zpad (width : nat) (n : Z) : string := zfill width (str_of_Z n).

(** [dt.isoformat()]: [YYYY-MM-DDTHH:MM:SS], followed by [.ffffff] when the
    microsecond is not zero. *)
Definition isoformat (dt : datetime) : string :=
  zpad 4 (year dt) +:+ "-" +:+ zpad 2 (month dt) +:+ "-" +:+ zpad 2 (day dt)
  +:+ "T" +:+ zpad 2 (hour dt) +:+ ":" +:+ zpad 2 (minute dt)
  +:+ ":" +:+ zpad 2 (second dt)
  +:+ (if microsecond dt =? 0 then "" else "." +:+ zpad 6 (microsecond dt)).

(** The instant a naive local datetime denotes, in microseconds since the
    epoch, given the offset in force. *)
Definition datetime_micros (offset : Z) (dt : datetime) : Z :=
  ((days_from_civil (year dt) (month dt) (day dt) * 86400
    + hour dt * 3600 + minute dt * 60 + second dt - offset) * 1000000)
  + microsecond dt.

(** ** The process state *)

Abbreviation document := (list dict).

(** The heap of dict objects, the two module-level lists (references into the
    heap, in insertion order), the files of the working directory (each a JSON
    document, here an array of objects), and the environment the process
    reads: the operating system's random bytes ([entropy k] is the big-endian
    value of the [k]-th sixteen-byte draw) and the local time zone.
    [Book_default_book_id] is the default of the [book_id] field, evaluated
    once when the class body runs. *)
Record state := mk_state {
  heap : gmap ref dict;
  BOOKS : list ref;
  LOCATIONS : list ref;
  files : gmap string document;
  Book_default_book_id : string;
  entropy : nat -> N;
  draws : nat;
  utcoffset : Z -> Z }.

Definition BOOKS_FILE : string := "books.json".
Definition LOCATIONS_FILE : string := "locations.json".

Definition M (A : Type) : Type := state -> outcome A * state.

#[global] Instance M_ret : MRet M := fun _ a st => (Return a, st).
#[global] Instance M_bind : MBind M := fun _ _ f m st =>
  match m st with
  | (Return a, st') => f a st'
  | (Raise e, st') => (Raise e, st')
  end.

Definition raise {A} (e : exn) : M A := fun st => (Raise e, st).
Definition lift {A} (o : outcome A) : M A := fun st => (o, st).
Definition gets {A} (f : state -> A) : M A := fun st => (Return (f st), st).
Definition modify (f : state -> state) : M unit := fun st => (Return tt, f st).

Definition set_heap (h : gmap ref dict) (st : state) : state :=
  mk_state h (BOOKS st) (LOCATIONS st) (files st) (Book_default_book_id st)
           (entropy st) (draws st) (utcoffset st).
Definition set_BOOKS (l : list ref) (st : state) : state :=
  mk_state (heap st) l (LOCATIONS st) (files st) (Book_default_book_id st)
           (entropy st) (draws st) (utcoffset st).
Definition set_LOCATIONS (l : list ref) (st : state) : state :=
  mk_state (heap st) (BOOKS st) l (files st) (Book_default_book_id st)
           (entropy st) (draws st) (utcoffset st).
Definition set_files (fs : gmap string document) (st : state) : state :=
  mk_state (heap st) (BOOKS st) (LOCATIONS st) fs (Book_default_book_id st)
           (entropy st) (draws st) (utcoffset st).
Definition set_Book_default_book_id (s : string) (st : state) : state :=
  mk_state (heap st) (BOOKS st) (LOCATIONS st) (files st) s
           (entropy st) (draws st) (utcoffset st).
Definition set_draws (n : nat) (st : state) : state :=
  mk_state (heap st) (BOOKS st) (LOCATIONS st) (files st) (Book_default_book_id st)
           (entropy st) n (utcoffset st).

(** *** Objects *)

(** A new dict object with the given items. *)
Definition new_dict (d : dict) : M ref := fun st =>
  let r := fresh (dom (heap st)) in
  (Return r, set_heap (<[r := d]> (heap st)) st).

(** The dict a reference points to.  A reference always points to a live
    object in Python; the SystemError branch is unreachable from states whose
    lists hold allocated references. *)
Definition deref (r : ref) : M dict := fun st =>
  match heap st !! r with
  | Some d => (Return d, st)
  | None => (Raise SystemError, st)
  end.

(** [obj[key]] *)
Definition getitem (r : ref) (key : string) : M pyval :=
  d ← deref r;
  match d !! key with
  | Some v => mret v
  | None => raise (KeyError key)
  end.

(** [obj[key] = v] *)
Definition setitem (r : ref) (key : string) (v : pyval) : M unit :=
  d ← deref r;
  modify (fun st => set_heap (<[r := <[key := v]> d]> (heap st)) st).

(** [obj.copy()]: a new dict with the same items. *)
Definition dict_copy (r : ref) : M ref :=
  d ← deref r;
  new_dict d.

(** [obj.name] on a dict object. *)
Definition getattr (r : ref) (name : string) : M pyobj :=
  _ ← deref r;
  lift (dict_getattr name).

(** The JSON rendering of a list of dict objects: the items of each, in list
    order. *)
Fixpoint snapshot (l : list ref) : M document :=
  match l with
  | [] => mret []
  | r :: l' =>
      d ← deref r;
      ds ← snapshot l';
      mret (d :: ds)
  end.

(** [with open(path, "w") as f: json.dump(l, f)]: the file is replaced by the
    rendering of the whole list. *)
Definition json_dump (path : string) (l : list ref) : M unit :=
  doc ← snapshot l;
  modify (fun st => set_files (<[path := doc]> (files st)) st).

(** [uuid4().hex]: consumes one sixteen-byte draw. *)
Definition uuid4_hex_draw : M string := fun st =>
  (Return (uuid4_hex (entropy st (draws st))), set_draws (S (draws st)) st).

(** [datetime.fromtimestamp(t)] in the process's time zone. *)
Definition fromtimestamp (t : pyval) : M datetime := fun st =>
  (datetime_fromtimestamp (utcoffset st) t, st).

(** *** [sorted] *)

(** A stable ascending list sort by insertion, comparing keys with [<] only.
    It fixes the order every stable sort gives when [<] is a strict weak
    order on the keys; an unorderable pair of keys raises TypeError. *)
Fixpoint insort {A} (x : pyval * A) (l : list (pyval * A))
  : outcome (list (pyval * A)) :=
  match l with
  | [] => Return [x]
  | y :: l' =>
      b ← py_lt y.1 x.1;
      if b : bool then r ← insort x l'; mret (y :: r)
      else mret (x :: y :: l')
  end.

Fixpoint list_sort {A} (l : list (pyval * A)) : outcome (list (pyval * A)) :=
  match l with
  | [] => Return []
  | x :: l' => s ← list_sort l'; insort x s
  end.

(** The key of every item, in list order. *)
Fixpoint keyed (key : ref -> M pyval) (l : list ref) : M (list (pyval * ref)) :=
  match l with
  | [] => mret []
  | x :: l' =>
      k ← key x;
      kl ← keyed key l';
      mret ((k, x) :: kl)
  end.

(** [sorted(l, key=key, reverse=reverse)]: a new list; with [reverse] the
    list is reversed before and after the ascending sort, which keeps items
    with equal keys in their original order. *)
Definition sorted (l : list ref) (key : ref -> M pyval) (reverse : bool)
  : M (list ref) :=
  kl ← keyed key l;
  s ← lift (list_sort (if reverse then list.reverse kl else kl));
  mret ((if reverse then list.reverse s else s).*2).

(** ** The models *)

Inductive Genre := fiction | non_fiction.

Definition Genre_str (g : Genre) : string :=
  match g with
  | fiction => "fiction"
  | non_fiction => "non-fiction"
  end.

Module Book.
Record t := mk {
  name : string;
  genre : Genre;
  price : float;
  book_id : option string }.

Definition set_book_id (v : option string) (b : t) : t :=
  mk (name b) (genre b) (price b) v.
End Book.

Module Location.
Record t := mk {
  time : float;
  lat : float;
  lng : float }.
End Location.

Definition optional_str (o : option string) : pyval :=
  match o with
  | Some s => VStr s
  | None => VNone
  end.

(** [jsonable_encoder(model)]: a new dict of the model's fields. *)
Definition Book_fields (b : Book.t) : dict :=
  {[ "name" := VStr (Book.name b);
     "genre" := VStr (Genre_str (Book.genre b));
     "price" := VFloat (Book.price b);
     "book_id" := optional_str (Book.book_id b) ]}.

Definition Location_fields (l : Location.t) : dict :=
  {[ "time" := VFloat (Location.time l);
     "lat" := VFloat (Location.lat l);
     "lng" := VFloat (Location.lng l) ]}.

(** ** The routes *)

Definition list_books : M document :=
  books ← gets BOOKS;
  snapshot books.

Definition book_by_index (index : Z) : M dict :=
  books ← gets BOOKS;
  if index <? Z.of_nat (length books) then
    book ← lift (list_getitem books index);
    deref book
  else
    raise (HTTPException 404
      ("Book index " +:+ str_of_Z index +:+ " out of range ("
       +:+ str_of_Z (Z.of_nat (length books)) +:+ ").")).

Definition add_book (book : Book.t) : M (option string) :=
  id ← uuid4_hex_draw;
  let book := Book.set_book_id (Some id) book in
  json_book ← new_dict (Book_fields book);
  modify (fun st => set_BOOKS (BOOKS st ++ [json_book]) st);;
  books ← gets BOOKS;
  json_dump BOOKS_FILE books;;
  mret (Book.book_id book).

Definition add_location (location : Location.t) : M unit :=
  json_location ← new_dict (Location_fields location);
  modify (fun st => set_LOCATIONS (LOCATIONS st ++ [json_location]) st);;
  locations ← gets LOCATIONS;
  json_dump LOCATIONS_FILE locations;;
  mret tt.

(** The loop of [get_locations] over the sorted list; [converted] is the
    list built so far. *)
Fixpoint get_locations_loop (sorted_locations converted : list ref)
  : M (list ref) :=
  match sorted_locations with
  | [] => mret converted
  | loc :: rest =>
      t ← getitem loc "time";
      secs ← lift (py_truediv t (VFloat (float_of_Z 1000)));
      dt ← fromtimestamp secs;
      loc_copy ← dict_copy loc;
      setitem loc_copy "time" (VStr (isoformat dt));;
      get_locations_loop rest (converted ++ [loc_copy])
  end.

Definition get_locations : M document :=
  locations ← gets LOCATIONS;
  sorted_locations ← sorted locations (fun x => getitem x "time") true;
  converted ← get_locations_loop sorted_locations [];
  snapshot converted.

(** The loop of [get_book]. *)
Fixpoint get_book_loop (books : list ref) (book_id : string) : M dict :=
  match books with
  | [] =>
      raise (HTTPException 404
        ("Book ID " +:+ book_id +:+ " not found in database."))
  | book :: rest =>
      a ← getattr book "book_id";
      if py_eq_str a book_id then deref book
      else get_book_loop rest book_id
  end.

Definition get_book (book_id : string) : M dict :=
  books ← gets BOOKS;
  get_book_loop books book_id.

(** ** Request bodies and their validation *)

(** A parsed JSON value, as [json.loads] gives it. *)
#[warnings="-register-all"]
Inductive json :=
| JNull
| JBool (b : bool)
| JInt (n : Z)
| JFloat (f : float)
| JStr (s : string)
| JArr (l : list json)
| JObj (m : gmap string json).

Section Schema.
(** How the schema library reads a [str] and a [float] field from a JSON
    value (which other JSON types it coerces depends on its version). *)
Variable str_validator : json -> option string.
Variable float_validator : json -> option float.

(** [Literal["fiction", "non-fiction"]]: the value must equal one of the
    two strings. *)
Definition genre_validator (v : json) : option Genre :=
  match v with
  | JStr s =>
      if String.eqb s "fiction" then Some fiction
      else if String.eqb s "non-fiction" then Some non_fiction
      else None
  | _ => None
  end.

(** [Optional[str]] *)
Definition optional_str_validator (v : json) : option (option string) :=
  match v with
  | JNull => Some None
  | _ => Some <$> str_validator v
  end.

(** One field of the body: a missing field takes its default, and is an
    error when it has none. *)
Definition field {A} (validate : json -> option A) (default : option A)
    (v : option json) : option A :=
  match v with
  | Some j => validate j
  | None => default
  end.

Definition field_errors {A} (name : string) (r : option A) : list string :=
  match r with
  | Some _ => []
  | None => [name]
  end.

(** Validation of a request body against [Book]; the error lists the
    offending fields. *)
Definition Book_validate (default_book_id : string) (body : json)
  : outcome Book.t :=
  match body with
  | JObj m =>
      let n := field str_validator None (m !! "name") in
      let g := field genre_validator None (m !! "genre") in
      let p := field float_validator None (m !! "price") in
      let i := field optional_str_validator (Some (Some default_book_id))
                     (m !! "book_id") in
      match n, g, p, i with
      | Some n, Some g, Some p, Some i => Return (Book.mk n g p i)
      | _, _, _, _ =>
          Raise (RequestValidationError
            (field_errors "name" n ++ field_errors "genre" g
             ++ field_errors "price" p ++ field_errors "book_id" i))
      end
  | _ => Raise (RequestValidationError ["body"])
  end.

Definition Location_validate (body : json) : outcome Location.t :=
  match body with
  | JObj m =>
      let t := field float_validator None (m !! "time") in
      let a := field float_validator None (m !! "lat") in
      let g := field float_validator None (m !! "lng") in
      match t, a, g with
      | Some t, Some a, Some g => Return (Location.mk t a g)
      | _, _, _ =>
          Raise (RequestValidationError
            (field_errors "time" t ++ field_errors "lat" a
             ++ field_errors "lng" g))
      end
  | _ => Raise (RequestValidationError ["body"])
  end.

(** POST [/add-book]: the body is validated before the handler runs. *)
Definition POST_add_book (body : json) : M (option string) :=
  default ← gets Book_default_book_id;
  book ← lift (Book_validate default body);
  add_book book.

(** POST [/add-location] *)
Definition POST_add_location (body : json) : M unit :=
  location ← lift (Location_validate body);
  add_location location.
End Schema.

(** ** Start of the process *)

(** [json.load(f)]: a new dict object for every element of the array. *)
Fixpoint json_load (doc : document) : M (list ref) :=
  match doc with
  | [] => mret []
  | d :: ds =>
      r ← new_dict d;
      rs ← json_load ds;
      mret (r :: rs)
  end.

(** The list a data file holds, or the empty list when it does not exist. *)
Definition load_file (path : string) : M (list ref) :=
  fs ← gets files;
  match fs !! path with
  | Some doc => json_load doc
  | None => mret []
  end.

(** The module body: the [Book] class evaluates its default identifier, then
    the two lists are read from their files. *)
Definition startup : M unit :=
  default ← uuid4_hex_draw;
  modify (set_Book_default_book_id default);;
  books ← load_file BOOKS_FILE;
  modify (set_BOOKS books);;
  locations ← load_file LOCATIONS_FILE;
  modify (set_LOCATIONS locations).

(** The state of a process started in a working directory [fs]. *)
Definition boot (fs : gmap string document) (rnd : nat -> N) (tz : Z -> Z)
  : state :=
  (startup (mk_state ∅ [] [] fs "" rnd 0 tz)).2.

(** ** Specification vocabulary *)

(** The state holds the book records [books] and the location records
    [locations], in this order. *)
Definition represents (st : state) (books locations : document) : Prop :=
  Forall2 (fun r d => heap st !! r = Some d) (BOOKS st) books /\
  Forall2 (fun r d => heap st !! r = Some d) (LOCATIONS st) locations.

(** Every object of [st] is in [st'] with the same items, and both lists,
    the files and the time zone are the same. *)
Definition preserved (st st' : state) : Prop :=
  heap st ⊆ heap st' /\
  BOOKS st' = BOOKS st /\
  LOCATIONS st' = LOCATIONS st /\
  files st' = files st /\
  utcoffset st' = utcoffset st.

(** A computation that keeps every existing object and both lists, however
    it ends. *)
Definition frames {A} (m : M A) : Prop :=
  forall st, preserved st (m st).2.

(** Successive calls of a handler. *)
Fixpoint each {A} (handler : A -> M unit) (requests : list A) : M unit :=
  match requests with
  | [] => mret tt
  | x :: rest => handler x;; each handler rest
  end.

Definition add_books (requests : list Book.t) : M (list (option string)) :=
  (fix go l := match l with
               | [] => mret []
               | b :: l' => i ← add_book b; r ← go l'; mret (i :: r)
               end) requests.

(** What [get_locations] makes of one stored location in time zone [tz]. *)
Definition converted (tz : Z -> Z) (l : Location.t) : outcome dict :=
  dt ← datetime_fromtimestamp tz
        (VFloat (float_truediv (Location.time l) (float_of_Z 1000)));
  mret (<["time" := VStr (isoformat dt)]> (Location_fields l)).

Definition float_le (x y : float) : bool := SFleb x y.

(** The day of a 400-year era, sent through [civil_from_days] and back
    through [days_from_civil], is itself. *)
Definition doe_roundtrip (doe : Z) : bool :=
  let yoe := (doe - doe / 1460 + doe / 36524 - doe / 146096) / 365 in
  let doy := doe - (365 * yoe + yoe / 4 - yoe / 100) in
  let mp := (5 * doy + 2) / 153 in
  let d := doy - (153 * mp + 2) / 5 + 1 in
  let m := if mp <? 10 then mp + 3 else mp - 9 in
  (146097 <=? doe) ||
  ((0 <=? yoe) && (yoe <? 400) &&
   (yoe * 365 + yoe / 4 - yoe / 100
    + ((153 * (if 2 <? m then m - 3 else m + 9) + 2) / 5 + d - 1) =? doe)).

(** [check] on every integer of [lo, lo + 2^k). *)
Fixpoint range_all (check : Z -> bool) (k : nat) (lo : Z) : bool :=
  match k with
  | O => check lo
  | S k' => range_all check k' lo && range_all check k' (lo + 2 ^ Z.of_nat k')
  end.

(** A stable ascending insertion sort of items by a boolean [<]. *)
Section InsertionSort.
Context {A : Type} (lt : A -> A -> bool).

Fixpoint insert_by (x : A) (l : list A) : list A :=
  match l with
  | [] => [x]
  | y :: l' => if lt y x then y :: insert_by x l' else x :: y :: l'
  end.

Fixpoint isort_by (l : list A) : list A :=
  match l with
  | [] => []
  | x :: l' => insert_by x (isort_by l')
  end.

(** Reverse, sort ascending, reverse. *)
Definition sort_desc_by (l : list A) : list A :=
  reverse (isort_by (reverse l)).

(** [a] and [b] compare equal: neither is less than the other. *)
Definition tied (a b : A) : Prop := lt a b = false /\ lt b a = false.
End InsertionSort.

Definition time_lt (a b : Location.t) : bool :=
  float_lt (Location.time a) (Location.time b).

(** ** The service as a whole *)

(** GET [/] *)
Definition root : M string := mret "Welcome to my bookstore app!".

(** One call of a route handler, its arguments already validated. *)
Inductive call :=
| Call_root
| Call_list_books
| Call_book_by_index (index : Z)
| Call_add_book (book : Book.t)
| Call_add_location (location : Location.t)
| Call_get_locations
| Call_get_book (book_id : string).

(** The handler of a call, its response dropped. *)
Definition handle (c : call) : M unit :=
  match c with
  | Call_root => root;; mret tt
  | Call_list_books => list_books;; mret tt
  | Call_book_by_index index => book_by_index index;; mret tt
  | Call_add_book book => add_book book;; mret tt
  | Call_add_location location => add_location location
  | Call_get_locations => get_locations;; mret tt
  | Call_get_book book_id => get_book book_id;; mret tt
  end.

(** The state after the calls are served in order: a call that raises is
    answered with an error status and the process goes on from the state the
    handler left. *)
Definition serve (calls : list call) (st : state) : state :=
  foldl (fun st c => (handle c st).2) st calls.

(** The document of a data file, empty when the file does not exist. *)
Definition file_document (fs : gmap string document) (path : string)
  : document :=
  default [] (fs !! path).

(** The state holds [books] and [locations], and the two files hold the same
    documents. *)
Definition mirrors (st : state) (books locations : document) : Prop :=
  represents st books locations /\
  file_document (files st) BOOKS_FILE = books /\
  file_document (files st) LOCATIONS_FILE = locations.

(** ** Sample data *)

Definition UTC : Z -> Z := fun _ => 0.

(** A source of random bytes whose [k]-th draw is the number [k]. *)
Definition counting : nat -> N := N.of_nat.

(** The decimal literal [n / d] as the nearest float. *)
Definition float_of_ratio (n d : Z) : float :=
  float_truediv (float_of_Z n) (float_of_Z d).

Definition Dune : Book.t :=
  Book.mk "Dune" fiction (float_of_ratio 999 100) None.

Definition Emma : Book.t :=
  Book.mk "Emma" non_fiction (float_of_Z 5) (Some "mine").

(** A process started in an empty directory, and the same after
    [add_book Dune] and [add_book Emma]. *)
Definition fresh_process : state := boot ∅ counting UTC.

Definition two_books : state :=
  ((add_book Dune;; add_book Emma) fresh_process).2.

Definition Dune_record : dict :=
  {[ "name" := VStr "Dune"; "genre" := VStr "fiction";
     "price" := VFloat (float_of_ratio 999 100);
     "book_id" := VStr "00000000000040008000000000000001" ]}.

Definition Emma_record : dict :=
  {[ "name" := VStr "Emma"; "genre" := VStr "non-fiction";
     "price" := VFloat (float_of_Z 5);
     "book_id" := VStr "00000000000040008000000000000002" ]}.

Definition location (t a g : Z) : Location.t :=
  Location.mk (float_of_Z t) (float_of_Z a) (float_of_Z g).

(** Three locations, the first and the third at the same time. *)
Definition sample_locations : list Location.t :=
  [ location 1700000000000 1 2;
    location 1700000001000 3 4;
    location 1700000000000 5 6 ].

Definition three_locations : state :=
  (each add_location sample_locations fresh_process).2.

(** A location a million times further from the epoch than year 9999. *)
Definition far_location : Location.t := location (10 ^ 18) 0 0.

(** * Properties *)

(** ** Running monadic code *)

Lemma bind_run {A B} (m : M A) (k : A -> M B) st :
  (m ≫= k) st =
  match m st with
  | (Return a, st') => k a st'
  | (Raise e, st') => (Raise e, st')
  end.
Proof. reflexivity. Qed.

Lemma deref_Some st r d :
  heap st !! r = Some d -> deref r st = (Return d, st).
Proof. intros H. unfold deref. by rewrite H. Qed.

Lemma snapshot_Forall2 st l ds :
  Forall2 (fun r d => heap st !! r = Some d) l ds ->
  snapshot l st = (Return ds, st).
Proof.
  induction 1 as [|r d l ds Hr _ IH]; [done|].
  cbn [snapshot]. rewrite bind_run, (deref_Some _ _ _ Hr).
  by rewrite bind_run, IH.
Qed.

Lemma append_assoc (a b c : string) : (a +:+ b) +:+ c = a +:+ b +:+ c.
Proof.
  induction a as [|x a IH]; [done|].
  change (String x ((a +:+ b) +:+ c) = String x (a +:+ b +:+ c)).
  by rewrite IH.
Qed.

Lemma str_contains_mid (a sub b : string) : str_contains (a +:+ sub +:+ b) sub.
Proof. by exists a, b. Qed.

(** ** Books by position *)

Lemma list_getitem_nonneg {A} (l : list A) (i : Z) x :
  0 <= i -> l !! Z.to_nat i = Some x -> list_getitem l i = Return x.
Proof.
  intros Hi Hx. unfold list_getitem.
  pose proof (lookup_lt_Some _ _ _ Hx) as Hlen.
  destruct (Z.ltb_spec i 0); [lia|].
  destruct (Z.leb_spec 0 i); [|lia].
  destruct (Z.ltb_spec i (Z.of_nat (length l))); [|lia].
  cbn. by rewrite Hx.
Qed.

Lemma list_getitem_negative {A} (l : list A) (i : Z) x :
  i < 0 -> l !! Z.to_nat (Z.of_nat (length l) + i) = Some x ->
  0 <= Z.of_nat (length l) + i ->
  list_getitem l i = Return x.
Proof.
  intros Hi Hx Hn. unfold list_getitem.
  pose proof (lookup_lt_Some _ _ _ Hx) as Hlen.
  destruct (Z.ltb_spec i 0); [|lia].
  rewrite (Z.add_comm i).
  destruct (Z.leb_spec 0 (Z.of_nat (length l) + i)); [|lia].
  destruct (Z.ltb_spec (Z.of_nat (length l) + i) (Z.of_nat (length l))); [|lia].
  cbn. by rewrite Hx.
Qed.

Lemma list_getitem_below {A} (l : list A) (i : Z) :
  i < - Z.of_nat (length l) -> list_getitem l i = Raise IndexError.
Proof.
  intros Hi. unfold list_getitem.
  destruct (Z.ltb_spec i 0); [|lia].
  destruct (Z.leb_spec 0 (i + Z.of_nat (length l))); [lia|]. done.
Qed.

Lemma book_by_index_found st books locations index j book :
  represents st books locations ->
  index < Z.of_nat (length books) ->
  list_getitem (BOOKS st) index = Return j ->
  heap st !! j = Some book ->
  book_by_index index st = (Return book, st).
Proof.
  intros [Hb _] Hlt Hj Hbook. unfold book_by_index.
  rewrite bind_run. cbn [gets].
  rewrite (Forall2_length _ _ _ Hb).
  destruct (Z.ltb_spec index (Z.of_nat (length books))); [|lia].
  rewrite bind_run. unfold lift. rewrite Hj.
  by apply deref_Some.
Qed.

(** C2: with [N] books stored, [book_by_index i] returns the book at
    position [i] for [0 <= i < N], and for [i >= N] raises the 404
    HTTPException whose detail contains the decimal text of [i] and of [N]. *)
Theorem book_by_index_in_range_or_NotFound st books locations (index : Z) :
  represents st books locations ->
  (0 <= index < Z.of_nat (length books) ->
     exists book, books !! Z.to_nat index = Some book /\
       book_by_index index st = (Return book, st)) /\
  (Z.of_nat (length books) <= index ->
     exists detail,
       book_by_index index st = (Raise (HTTPException 404 detail), st) /\
       status_of (HTTPException 404 detail) = 404 /\
       str_contains detail (str_of_Z index) /\
       str_contains detail (str_of_Z (Z.of_nat (length books)))).
Proof.
  intros Hrep. split.
  - intros [H0 Hn].
    destruct (lookup_lt_is_Some_2 books (Z.to_nat index)) as [book Hbook]; [lia|].
    destruct Hrep as [Hb Hl].
    destruct (Forall2_lookup_r _ _ _ _ _ Hb Hbook) as (j & Hj & Hheap).
    exists book. split; [done|].
    eapply book_by_index_found; [by split| lia | | done].
    by apply list_getitem_nonneg.
  - intros Hge. eexists. split; [|split; [done|split]].
    + unfold book_by_index. rewrite bind_run. cbn [gets].
      destruct Hrep as [Hb _]. rewrite (Forall2_length _ _ _ Hb).
      destruct (Z.ltb_spec index (Z.of_nat (length books))); [lia|]. done.
    + apply str_contains_mid.
    + rewrite <- !append_assoc. rewrite append_assoc.
      apply str_contains_mid.
Qed.

(** C9: the 404 branch is taken only for [index >= N]; a negative index
    [-N <= index < 0] returns the book at position [N + index], and an index
    below [-N] raises IndexError, which is not an HTTPException. *)
Theorem book_by_index_negative_index st books locations (index : Z) :
  represents st books locations ->
  (forall detail,
     book_by_index index st = (Raise (HTTPException 404 detail), st) ->
     Z.of_nat (length books) <= index) /\
  (- Z.of_nat (length books) <= index < 0 ->
     exists book,
       books !! Z.to_nat (Z.of_nat (length books) + index) = Some book /\
       book_by_index index st = (Return book, st)) /\
  (index < - Z.of_nat (length books) ->
     book_by_index index st = (Raise IndexError, st) /\
     status_of IndexError = 500).
Proof.
  intros Hrep. pose proof Hrep as [Hb Hl].
  pose proof (Forall2_length _ _ _ Hb) as Hlen.
  assert (Hneg : - Z.of_nat (length books) <= index < 0 ->
     exists book,
       books !! Z.to_nat (Z.of_nat (length books) + index) = Some book /\
       book_by_index index st = (Return book, st)).
  { intros [Hlo Hhi].
    destruct (lookup_lt_is_Some_2 books
      (Z.to_nat (Z.of_nat (length books) + index))) as [book Hbook]; [lia|].
    destruct (Forall2_lookup_r _ _ _ _ _ Hb Hbook) as (j & Hj & Hheap).
    exists book. split; [done|].
    eapply book_by_index_found; [done | lia | | done].
    apply list_getitem_negative; [done | by rewrite Hlen | lia]. }
  assert (Hlow : index < - Z.of_nat (length books) ->
     book_by_index index st = (Raise IndexError, st)).
  { intros Hlt. unfold book_by_index. rewrite bind_run. cbn [gets].
    rewrite Hlen.
    destruct (Z.ltb_spec index (Z.of_nat (length books))); [|lia].
    rewrite bind_run. unfold lift.
    rewrite list_getitem_below; [done | lia]. }
  split; [|split; [done | by split; [apply Hlow|]]].
  intros detail Hrun.
  destruct (Z.lt_ge_cases index (Z.of_nat (length books))) as [Hlt|]; [|done].
  exfalso.
  destruct (Z.lt_ge_cases index 0) as [Hn|Hn].
  - destruct (Z.lt_ge_cases index (- Z.of_nat (length books))) as [Hm|Hm].
    + rewrite (Hlow Hm) in Hrun. discriminate.
    + destruct Hneg as (b & _ & Hr); [lia|]. rewrite Hr in Hrun. discriminate.
  - destruct (lookup_lt_is_Some_2 books (Z.to_nat index)) as [book Hbook]; [lia|].
    destruct (Forall2_lookup_r _ _ _ _ _ Hb Hbook) as (j & Hj & Hheap).
    rewrite (book_by_index_found st books locations index j book) in Hrun;
      [discriminate | done | done | by apply list_getitem_nonneg | done].
Qed.

(** ** Adding records *)

Lemma fresh_heap_None (h : gmap ref dict) : h !! fresh (dom h) = None.
Proof. apply not_elem_of_dom, is_fresh. Qed.

Lemma Forall2_heap_weaken (h h' : gmap ref dict) l ds :
  h ⊆ h' ->
  Forall2 (fun r d => h !! r = Some d) l ds ->
  Forall2 (fun r d => h' !! r = Some d) l ds.
Proof.
  intros Hsub H. eapply Forall2_impl; [exact H|].
  intros r d Hr. cbn in *. by eapply lookup_weaken.
Qed.

Lemma Forall2_heap_snoc (h : gmap ref dict) l ds d :
  Forall2 (fun r d => h !! r = Some d) l ds ->
  Forall2 (fun r' d' => <[fresh (dom h) := d]> h !! r' = Some d')
          (l ++ [fresh (dom h)]) (ds ++ [d]).
Proof.
  intros H. apply Forall2_app.
  - eapply Forall2_heap_weaken; [|exact H].
    apply insert_subseteq, fresh_heap_None.
  - constructor; [|constructor]. apply lookup_insert_eq.
Qed.

Lemma add_book_run st books locations b :
  represents st books locations ->
  let id := uuid4_hex (entropy st (draws st)) in
  let r := fresh (dom (heap st)) in
  let rec := Book_fields (Book.set_book_id (Some id) b) in
  add_book b st =
    (Return (Some id),
     mk_state (<[r := rec]> (heap st)) (BOOKS st ++ [r]) (LOCATIONS st)
       (<[BOOKS_FILE := books ++ [rec]]> (files st))
       (Book_default_book_id st) (entropy st) (S (draws st)) (utcoffset st)).
Proof.
  intros [Hb Hl] id r rec. unfold add_book.
  rewrite bind_run. cbn [uuid4_hex_draw].
  rewrite bind_run. cbn [new_dict set_draws heap].
  rewrite bind_run. cbn [modify].
  rewrite bind_run. cbn [gets set_BOOKS set_heap BOOKS heap].
  rewrite bind_run. unfold json_dump. rewrite bind_run.
  erewrite snapshot_Forall2; [reflexivity|].
  cbn [heap set_BOOKS set_heap]. by apply Forall2_heap_snoc.
Qed.

Lemma add_location_run st books locations l :
  represents st books locations ->
  let r := fresh (dom (heap st)) in
  let rec := Location_fields l in
  add_location l st =
    (Return tt,
     mk_state (<[r := rec]> (heap st)) (BOOKS st) (LOCATIONS st ++ [r])
       (<[LOCATIONS_FILE := locations ++ [rec]]> (files st))
       (Book_default_book_id st) (entropy st) (draws st) (utcoffset st)).
Proof.
  intros [Hb Hl] r rec. unfold add_location.
  rewrite bind_run. cbn [new_dict].
  rewrite bind_run. cbn [modify].
  rewrite bind_run. cbn [gets set_LOCATIONS set_heap LOCATIONS heap].
  rewrite bind_run. unfold json_dump. rewrite bind_run.
  erewrite snapshot_Forall2; [reflexivity|].
  cbn [heap set_LOCATIONS set_heap]. by apply Forall2_heap_snoc.
Qed.

Lemma represents_snoc_book st books locations rec fs dflt rnd n tz :
  represents st books locations ->
  represents
    (mk_state (<[fresh (dom (heap st)) := rec]> (heap st))
       (BOOKS st ++ [fresh (dom (heap st))]) (LOCATIONS st) fs dflt rnd n tz)
    (books ++ [rec]) locations.
Proof.
  intros [Hb Hl]. split; cbn [heap BOOKS LOCATIONS].
  - by apply Forall2_heap_snoc.
  - eapply Forall2_heap_weaken; [|exact Hl].
    apply insert_subseteq, fresh_heap_None.
Qed.

Lemma represents_snoc_location st books locations rec fs dflt rnd n tz :
  represents st books locations ->
  represents
    (mk_state (<[fresh (dom (heap st)) := rec]> (heap st))
       (BOOKS st) (LOCATIONS st ++ [fresh (dom (heap st))]) fs dflt rnd n tz)
    books (locations ++ [rec]).
Proof.
  intros [Hb Hl]. split; cbn [heap BOOKS LOCATIONS].
  - eapply Forall2_heap_weaken; [|exact Hb].
    apply insert_subseteq, fresh_heap_None.
  - by apply Forall2_heap_snoc.
Qed.

(** C5: a successful [add_book] appends the new record at the end of [BOOKS]
    and replaces the books file by the whole collection, and [add_location]
    does the same for [LOCATIONS] and the locations file; the other list and
    the other files are left as they were. *)
Theorem add_appends_and_rewrites_file st books locations :
  represents st books locations ->
  (forall b, exists id r st',
     add_book b st = (Return (Some id), st') /\
     let rec := Book_fields (Book.set_book_id (Some id) b) in
     BOOKS st' = BOOKS st ++ [r] /\
     heap st' !! r = Some rec /\
     LOCATIONS st' = LOCATIONS st /\
     represents st' (books ++ [rec]) locations /\
     files st' !! BOOKS_FILE = Some (books ++ [rec]) /\
     (forall path, path <> BOOKS_FILE -> files st' !! path = files st !! path)) /\
  (forall l, exists r st',
     add_location l st = (Return tt, st') /\
     let rec := Location_fields l in
     LOCATIONS st' = LOCATIONS st ++ [r] /\
     heap st' !! r = Some rec /\
     BOOKS st' = BOOKS st /\
     represents st' books (locations ++ [rec]) /\
     files st' !! LOCATIONS_FILE = Some (locations ++ [rec]) /\
     (forall path, path <> LOCATIONS_FILE ->
        files st' !! path = files st !! path)).
Proof.
  intros Hrep. split.
  - intros b. do 3 eexists. split; [by eapply add_book_run|].
    cbn [BOOKS LOCATIONS heap files].
    split; [done|]. split; [apply lookup_insert_eq|]. split; [done|].
    split; [by apply represents_snoc_book|].
    split; [apply lookup_insert_eq|].
    intros path Hne. by apply lookup_insert_ne.
  - intros l. do 2 eexists. split; [by eapply add_location_run|].
    cbn [BOOKS LOCATIONS heap files].
    split; [done|]. split; [apply lookup_insert_eq|]. split; [done|].
    split; [by apply represents_snoc_location|].
    split; [apply lookup_insert_eq|].
    intros path Hne. by apply lookup_insert_ne.
Qed.

(** ** Listing books *)

Lemma list_books_run st books locations :
  represents st books locations -> list_books st = (Return books, st).
Proof.
  intros [Hb _]. unfold list_books. rewrite bind_run. cbn [gets].
  by apply snapshot_Forall2.
Qed.

Lemma Book_fields_book_id b :
  Book_fields b !! "book_id" = Some (optional_str (Book.book_id b)).
Proof. unfold Book_fields. by simplify_map_eq. Qed.

Lemma add_books_cons b l :
  add_books (b :: l) = (i ← add_book b; r ← add_books l; mret (i :: r)).
Proof. reflexivity. Qed.

Lemma add_books_run reqs : forall st books locations,
  represents st books locations ->
  exists ids st',
    add_books reqs st = (Return (Some <$> ids), st') /\
    length ids = length reqs /\
    represents st'
      (books ++ zip_with (fun b id => Book_fields (Book.set_book_id (Some id) b))
                         reqs ids)
      locations.
Proof.
  induction reqs as [|b reqs IH]; intros st books locations Hrep.
  - exists [], st. cbn. by rewrite app_nil_r.
  - rewrite add_books_cons, bind_run.
    rewrite (add_book_run _ _ _ _ Hrep).
    set (id := uuid4_hex (entropy st (draws st))).
    destruct (IH _ _ _ (represents_snoc_book st books locations
      (Book_fields (Book.set_book_id (Some id) b))
      (<[BOOKS_FILE := books ++ [Book_fields (Book.set_book_id (Some id) b)]]>
         (files st))
      (Book_default_book_id st) (entropy st) (S (draws st)) (utcoffset st) Hrep))
      as (ids & st' & Hrun & Hlen & Hrep').
    exists (id :: ids), st'. rewrite bind_run, Hrun.
    split; [done|]. split; [cbn; lia|].
    cbn [zip_with]. by rewrite <- app_assoc in Hrep'.
Qed.

(** C7: [list_books] returns the whole collection in insertion order; after
    [add_book] it ends with the new book, whose [book_id] item is the
    identifier [add_book] returned; after any run of additions it lists every
    added book, in the order of the requests. *)
Theorem list_books_full_collection st books locations :
  represents st books locations ->
  list_books st = (Return books, st) /\
  (forall b, exists id st' rec,
     add_book b st = (Return (Some id), st') /\
     list_books st' = (Return (books ++ [rec]), st') /\
     rec = Book_fields (Book.set_book_id (Some id) b) /\
     rec !! "book_id" = Some (VStr id)) /\
  (forall reqs, exists ids st',
     add_books reqs st = (Return (Some <$> ids), st') /\
     length ids = length reqs /\
     list_books st' =
       (Return (books ++ zip_with
                  (fun b id => Book_fields (Book.set_book_id (Some id) b))
                  reqs ids), st')).
Proof.
  intros Hrep. split; [by eapply list_books_run|]. split.
  - intros b. do 3 eexists. split; [by eapply add_book_run|].
    split; [|split; [reflexivity|]].
    + eapply list_books_run. by apply represents_snoc_book.
    + by rewrite Book_fields_book_id.
  - intros reqs.
    destruct (add_books_run reqs _ _ _ Hrep) as (ids & st' & Hrun & Hlen & Hrep').
    exists ids, st'. split; [done|]. split; [done|].
    by eapply list_books_run.
Qed.

(** ** Identifiers *)

Lemma is_hex_char_hex_char d : is_hex_char (hex_char d) = true.
Proof. unfold hex_char. repeat case_match; reflexivity. Qed.

Lemma hex_digits_length w : forall n acc,
  String.length (hex_digits w n acc) = (w + String.length acc)%nat.
Proof.
  induction w as [|w IH]; intros n acc; [done|].
  cbn [hex_digits]. rewrite IH. cbn [String.length]. lia.
Qed.

Lemma hex_digits_hex w : forall n acc,
  forallb is_hex_char (list_ascii_of_string acc) = true ->
  forallb is_hex_char (list_ascii_of_string (hex_digits w n acc)) = true.
Proof.
  induction w as [|w IH]; intros n acc Hacc; [done|].
  cbn [hex_digits]. apply IH.
  cbn [list_ascii_of_string forallb]. by rewrite is_hex_char_hex_char.
Qed.

Lemma uuid4_hex_token r : is_hex_token (uuid4_hex r) = true.
Proof.
  unfold is_hex_token, uuid4_hex, format_032x.
  rewrite hex_digits_length, hex_digits_hex; done.
Qed.

(** C4, as the code has it: [add_book] returns and stores the identifier
    generated from the next random draw, a string of 32 hexadecimal digits,
    whatever [book_id] the request carried; so the returned identifier
    differs from a client-supplied one unless the client sent that very
    token, and in particular whenever the client's value is not a string of 32
    hexadecimal digits. *)
Theorem add_book_assigns_generated_id st books locations b :
  represents st books locations ->
  let id := uuid4_hex (entropy st (draws st)) in
  exists st',
    add_book b st = (Return (Some id), st') /\
    is_hex_token id = true /\
    (forall client_id,
       add_book (Book.set_book_id client_id b) st = (Return (Some id), st')) /\
    list_books st' =
      (Return (books ++ [<["book_id" := VStr id]> (Book_fields b)]), st') /\
    (forall s, Book.book_id b = Some s -> s <> id -> Some id <> Book.book_id b) /\
    (forall s, Book.book_id b = Some s -> is_hex_token s = false ->
       Some id <> Book.book_id b).
Proof.
  intros Hrep id. eexists. split; [by eapply add_book_run|].
  split; [apply uuid4_hex_token|]. split; [|split; [|split]].
  - intros client_id. by erewrite add_book_run.
  - erewrite list_books_run; [reflexivity|].
    replace (<["book_id" := VStr id]> (Book_fields b))
      with (Book_fields (Book.set_book_id (Some id) b)).
    + by apply represents_snoc_book.
    + unfold Book_fields. cbn [Book.set_book_id Book.name Book.genre
        Book.price Book.book_id optional_str].
      apply map_eq. intros k.
      destruct (decide (k = "book_id")) as [->|]; by simplify_map_eq.
  - intros s Hs Hne. rewrite Hs. congruence.
  - intros s Hs Htok. rewrite Hs. intros [= <-].
    pose proof (uuid4_hex_token (entropy st (draws st))) as H.
    fold id in H. congruence.
Qed.

(** ** Books by identifier *)

Lemma get_book_empty st book_id :
  BOOKS st = [] ->
  get_book book_id st =
    (Raise (HTTPException 404
       ("Book ID " +:+ book_id +:+ " not found in database.")), st).
Proof. intros H. unfold get_book. rewrite bind_run. cbn [gets]. by rewrite H. Qed.

Lemma get_book_nonempty st books locations book_id :
  represents st books locations ->
  books <> [] ->
  get_book book_id st =
    (Raise (AttributeError "'dict' object has no attribute 'book_id'"), st).
Proof.
  intros [Hb _] Hne. unfold get_book. rewrite bind_run. cbn [gets].
  destruct Hb as [|r d l ds Hr _]; [done|].
  cbn [get_book_loop]. rewrite bind_run. unfold getattr.
  rewrite bind_run, (deref_Some _ _ _ Hr). reflexivity.
Qed.

Lemma two_books_represents : represents two_books [Dune_record; Emma_record] [].
Proof.
  split; vm_compute; repeat constructor.
Qed.

(** C1 on the code: with Dune and Emma stored under the identifiers
    [add_book] returned, [get_book] of Emma's identifier does not return
    Emma's record: the attribute access [book.book_id] on the first stored
    dict raises AttributeError, a 500 response.  On the empty collection the
    404 with the identifier in its detail is raised. *)
Theorem get_book_of_stored_id_raises_AttributeError :
  list_books two_books = (Return [Dune_record; Emma_record], two_books) /\
  Emma_record !! "book_id" = Some (VStr "00000000000040008000000000000002") /\
  get_book "00000000000040008000000000000002" two_books =
    (Raise (AttributeError "'dict' object has no attribute 'book_id'"),
     two_books) /\
  status_of (AttributeError "'dict' object has no attribute 'book_id'") = 500 /\
  get_book "00000000000040008000000000000002" fresh_process =
    (Raise (HTTPException 404
       "Book ID 00000000000040008000000000000002 not found in database."),
     fresh_process).
Proof.
  split; [apply (list_books_run _ _ _ two_books_represents)|].
  split; [reflexivity|].
  split; [by apply (get_book_nonempty _ _ _ _ two_books_represents)|].
  split; [reflexivity|].
  by apply get_book_empty.
Qed.

(** ** The theorems at sample inputs *)

Ltac represents_by_eval := split; vm_compute; repeat constructor.

Lemma book_by_index_in_range_or_NotFound_witness :
  represents two_books [Dune_record; Emma_record] [] /\
  ((0 <= 1 < Z.of_nat (length [Dune_record; Emma_record]) ->
     exists book, [Dune_record; Emma_record] !! Z.to_nat 1 = Some book /\
       book_by_index 1 two_books = (Return book, two_books)) /\
   (Z.of_nat (length [Dune_record; Emma_record]) <= 1 ->
     exists detail,
       book_by_index 1 two_books = (Raise (HTTPException 404 detail), two_books) /\
       status_of (HTTPException 404 detail) = 404 /\
       str_contains detail (str_of_Z 1) /\
       str_contains detail
         (str_of_Z (Z.of_nat (length [Dune_record; Emma_record]))))).
Proof.
  split; [represents_by_eval|].
  apply (book_by_index_in_range_or_NotFound two_books
           [Dune_record; Emma_record] [] 1).
  represents_by_eval.
Defined.

Lemma book_by_index_negative_index_witness :
  represents two_books [Dune_record; Emma_record] [] /\
  ((forall detail,
     book_by_index (-1) two_books
       = (Raise (HTTPException 404 detail), two_books) ->
     Z.of_nat (length [Dune_record; Emma_record]) <= -1) /\
   (- Z.of_nat (length [Dune_record; Emma_record]) <= -1 < 0 ->
     exists book,
       [Dune_record; Emma_record]
         !! Z.to_nat (Z.of_nat (length [Dune_record; Emma_record]) + -1)
         = Some book /\
       book_by_index (-1) two_books = (Return book, two_books)) /\
   (-1 < - Z.of_nat (length [Dune_record; Emma_record]) ->
     book_by_index (-1) two_books = (Raise IndexError, two_books) /\
     status_of IndexError = 500)).
Proof.
  split; [represents_by_eval|].
  apply (book_by_index_negative_index two_books
           [Dune_record; Emma_record] [] (-1)).
  represents_by_eval.
Defined.

(** GET [/book_by_index/5] with two books stored: a 404 that mentions 5
    and 2; index [-1] is the last book and index [-3] an IndexError. *)
Example book_by_index_examples :
  book_by_index 5 two_books =
    (Raise (HTTPException 404 "Book index 5 out of range (2)."), two_books) /\
  book_by_index 0 two_books = (Return Dune_record, two_books) /\
  book_by_index (-1) two_books = (Return Emma_record, two_books) /\
  book_by_index (-3) two_books = (Raise IndexError, two_books).
Proof. repeat split; vm_compute; reflexivity. Qed.

Lemma add_appends_and_rewrites_file_witness :
  represents two_books [Dune_record; Emma_record] [] /\
  (exists id r st',
     add_book Dune two_books = (Return (Some id), st') /\
     BOOKS st' = BOOKS two_books ++ [r] /\
     files st' !! BOOKS_FILE =
       Some ([Dune_record; Emma_record]
             ++ [Book_fields (Book.set_book_id (Some id) Dune)])) /\
  (exists r st',
     add_location (Location.mk (float_of_Z 1700000000000)
                               (float_of_Z 1) (float_of_Z 2)) two_books
       = (Return tt, st') /\
     LOCATIONS st' = LOCATIONS two_books ++ [r] /\
     files st' !! LOCATIONS_FILE =
       Some [Location_fields (Location.mk (float_of_Z 1700000000000)
                                          (float_of_Z 1) (float_of_Z 2))]).
Proof.
  assert (H : represents two_books [Dune_record; Emma_record] [])
    by represents_by_eval.
  split; [exact H|].
  destruct (add_appends_and_rewrites_file two_books _ _ H) as [Hb Hl].
  split.
  - destruct (Hb Dune) as (id & r & st' & Hrun & HB & _ & _ & _ & Hf & _).
    by exists id, r, st'.
  - destruct (Hl (Location.mk (float_of_Z 1700000000000)
                              (float_of_Z 1) (float_of_Z 2)))
      as (r & st' & Hrun & HL & _ & _ & _ & Hf & _).
    by exists r, st'.
Defined.

Lemma list_books_full_collection_witness :
  represents two_books [Dune_record; Emma_record] [] /\
  list_books two_books = (Return [Dune_record; Emma_record], two_books) /\
  (exists id st' rec,
     add_book Dune two_books = (Return (Some id), st') /\
     list_books st' = (Return ([Dune_record; Emma_record] ++ [rec]), st') /\
     rec !! "book_id" = Some (VStr id)).
Proof.
  assert (H : represents two_books [Dune_record; Emma_record] [])
    by represents_by_eval.
  split; [exact H|].
  destruct (list_books_full_collection two_books _ _ H) as (Hl & Ha & _).
  split; [exact Hl|].
  destruct (Ha Dune) as (id & st' & rec & Hrun & Hlist & _ & Hid).
  by exists id, st', rec.
Defined.

Lemma add_book_assigns_generated_id_witness :
  represents two_books [Dune_record; Emma_record] [] /\
  exists st',
    add_book Emma two_books =
      (Return (Some "00000000000040008000000000000003"), st') /\
    Book.book_id Emma = Some "mine" /\
    add_book (Book.set_book_id None Emma) two_books =
      (Return (Some "00000000000040008000000000000003"), st').
Proof.
  assert (H : represents two_books [Dune_record; Emma_record] [])
    by represents_by_eval.
  split; [exact H|].
  destruct (add_book_assigns_generated_id two_books _ _ Emma H)
    as (st' & Hrun & _ & Hany & _).
  exists st'. split; [exact Hrun|]. split; [reflexivity|].
  exact (Hany None).
Defined.

(** C4 as stated fails when the random draw yields the very token the
    client sent: the returned identifier is then the client-supplied one. *)
Lemma add_book_returns_client_supplied_id :
  let request :=
    Book.mk "Dune" fiction (float_of_ratio 999 100)
            (Some "00000000000040008000000000000001") in
  (add_book request fresh_process).1 = Return (Book.book_id request).
Proof. vm_compute. reflexivity. Qed.

(** ** Validation of the genre *)

Lemma genre_validator_Some v g :
  genre_validator v = Some g <-> v = JStr (Genre_str g).
Proof.
  unfold genre_validator. split.
  - destruct v as [| | | |s| |]; try discriminate.
    destruct (String.eqb_spec s "fiction") as [->|];
      [by intros [= <-]|].
    destruct (String.eqb_spec s "non-fiction") as [->|];
      [by intros [= <-]|discriminate].
  - intros ->. by destruct g.
Qed.

Lemma elem_of_field_errors {A} name (r : option A) :
  name ∈ field_errors name r <-> r = None.
Proof.
  destruct r; cbn; [|by rewrite list_elem_of_singleton].
  split; [by intros ?%elem_of_nil|done].
Qed.

Lemma Book_validate_genre str_validator float_validator dflt m :
  match Book_validate str_validator float_validator dflt (JObj m) with
  | Return b => m !! "genre" = Some (JStr (Genre_str (Book.genre b)))
  | Raise e =>
      exists errors, e = RequestValidationError errors /\
        ("genre" ∈ errors <->
         forall g, m !! "genre" <> Some (JStr (Genre_str g)))
  end.
Proof.
  unfold Book_validate.
  set (n := field str_validator None (m !! "name")).
  set (g := field genre_validator None (m !! "genre")).
  set (p := field float_validator None (m !! "price")).
  set (i := field (optional_str_validator str_validator) _ (m !! "book_id")).
  assert (Hg : forall x, g = Some x <-> m !! "genre" = Some (JStr (Genre_str x))).
  { intros x. unfold g, field. destruct (m !! "genre") as [v|].
    - rewrite genre_validator_Some. split; congruence.
    - split; discriminate. }
  assert (Herr : "genre" ∈ field_errors "name" n ++ field_errors "genre" g
                   ++ field_errors "price" p ++ field_errors "book_id" i
                 <-> forall x, m !! "genre" <> Some (JStr (Genre_str x))).
  { rewrite !elem_of_app, elem_of_field_errors.
    split.
    - intros [H|[H|[H|H]]] x Hx.
      + destruct n; cbn in H; [by apply elem_of_nil in H|].
        by apply list_elem_of_singleton in H.
      + apply Hg in Hx. congruence.
      + destruct p; cbn in H; [by apply elem_of_nil in H|].
        by apply list_elem_of_singleton in H.
      + destruct i; cbn in H; [by apply elem_of_nil in H|].
        by apply list_elem_of_singleton in H.
    - intros H. right; left. destruct g as [x|]; [|done].
      by destruct (H x); apply Hg. }
  destruct n as [n'|], g as [g'|] eqn:Eg, p as [p'|], i as [i'|];
    try (eexists; split; [reflexivity|exact Herr]).
  cbn [Book.genre]. by apply Hg.
Qed.

(** C6: a request whose genre is not exactly ["fiction"] or ["non-fiction"]
    is rejected with a validation error (status 422) that names the genre
    field, and the state is unchanged, so no book is added; a genre that is
    one of the two strings is accepted by the genre validator and is never
    among the reported fields. *)
Theorem POST_add_book_genre_validation
    (str_validator : json -> option string)
    (float_validator : json -> option float) st (m : gmap string json) :
  ((forall g, m !! "genre" <> Some (JStr (Genre_str g))) ->
     exists errors,
       POST_add_book str_validator float_validator (JObj m) st
         = (Raise (RequestValidationError errors), st) /\
       "genre" ∈ errors /\
       status_of (RequestValidationError errors) = 422) /\
  (forall g, m !! "genre" = Some (JStr (Genre_str g)) ->
     genre_validator (JStr (Genre_str g)) = Some g /\
     match Book_validate str_validator float_validator
             (Book_default_book_id st) (JObj m) with
     | Return b => Book.genre b = g
     | Raise e =>
         exists errors, e = RequestValidationError errors /\ "genre" ∉ errors
     end).
Proof.
  pose proof (Book_validate_genre str_validator float_validator
                (Book_default_book_id st) m) as H.
  split.
  - intros Hbad. unfold POST_add_book. rewrite bind_run. cbn [gets].
    rewrite bind_run. unfold lift.
    destruct (Book_validate _ _ _ _) as [b|e].
    + by destruct (Hbad (Book.genre b)).
    + destruct H as (errors & -> & Herr). exists errors.
      split; [done|]. split; [by apply Herr|done].
  - intros g Hg. split; [by apply genre_validator_Some|].
    destruct (Book_validate _ _ _ _) as [b|e].
    + rewrite Hg in H. injection H as H. by destruct g, (Book.genre b).
    + destruct H as (errors & -> & Herr). exists errors. split; [done|].
      intros Hin. destruct Herr as [Herr _]. exact (Herr Hin g Hg).
Qed.

Lemma POST_add_book_genre_validation_witness :
  let m : gmap string json :=
    {[ "name" := JStr "X"; "genre" := JStr "mystery"; "price" := JInt 1 ]} in
  (forall g, m !! "genre" <> Some (JStr (Genre_str g))) /\
  exists errors,
    POST_add_book (fun _ => None) (fun _ => None) (JObj m) two_books
      = (Raise (RequestValidationError errors), two_books) /\
    "genre" ∈ errors.
Proof.
  intros m.
  assert (H : forall g, m !! "genre" <> Some (JStr (Genre_str g))).
  { intros g. vm_compute. destruct g; discriminate. }
  split; [exact H|].
  destruct (POST_add_book_genre_validation
              (fun _ => None) (fun _ => None) two_books m) as [Hbad _].
  destruct (Hbad H) as (errors & Hrun & Hin & _).
  by exists errors.
Defined.

(** ** The order of floats *)

Lemma SFcompare_rank a b :
  float_is_nan a = false -> float_is_nan b = false ->
  exists c, SFcompare a b = Some c /\
    (c = Lt <-> rank_lt (float_rank a) (float_rank b)) /\
    (c = Gt <-> rank_lt (float_rank b) (float_rank a)).
Proof.
  intros Ha Hb.
  destruct a as [sa|sa| |sa ma ea], b as [sb|sb| |sb mb eb]; try discriminate;
    try destruct sa; try destruct sb;
    (eexists; split; [reflexivity|]); unfold rank_lt, float_rank;
    try (split; split; intros Hc; (discriminate || lia || reflexivity)).
  all: change (Pos.compare_cont Eq ma mb) with (Pos.compare ma mb).
  all: destruct (Z.compare_spec ea eb); destruct (Pos.compare_spec ma mb); cbn.
  all: split; split; intros Hc; (discriminate || lia || reflexivity).
Qed.

Lemma float_lt_rank a b :
  float_is_nan a = false -> float_is_nan b = false ->
  float_lt a b = true <-> rank_lt (float_rank a) (float_rank b).
Proof.
  intros Ha Hb. destruct (SFcompare_rank a b Ha Hb) as (c & Hc & Hlt & _).
  unfold float_lt, SFltb. rewrite Hc, <- Hlt. by destruct c.
Qed.

Lemma float_le_rank a b :
  float_is_nan a = false -> float_is_nan b = false ->
  float_le a b = true <-> ~ rank_lt (float_rank b) (float_rank a).
Proof.
  intros Ha Hb. destruct (SFcompare_rank a b Ha Hb) as (c & Hc & _ & Hgt).
  unfold float_le, SFleb. rewrite Hc, <- Hgt. by destruct c.
Qed.

Lemma rank_lt_asym a b : rank_lt a b -> ~ rank_lt b a.
Proof. destruct a as [[c1 e1] m1], b as [[c2 e2] m2]. unfold rank_lt. lia. Qed.

Lemma rank_lt_negtrans a b c : rank_lt a c -> rank_lt a b \/ rank_lt b c.
Proof.
  destruct a as [[c1 e1] m1], b as [[c2 e2] m2], c as [[c3 e3] m3].
  unfold rank_lt. lia.
Qed.

Lemma float_lt_asym a b :
  float_is_nan a = false -> float_is_nan b = false ->
  float_lt a b = true -> float_lt b a = false.
Proof.
  intros Ha Hb H. apply float_lt_rank in H; [|done..].
  apply not_true_is_false. intros H'. apply float_lt_rank in H'; [|done..].
  by eapply rank_lt_asym.
Qed.

Lemma float_lt_negtrans a b c :
  float_is_nan a = false -> float_is_nan b = false -> float_is_nan c = false ->
  float_lt a c = true -> float_lt a b = true \/ float_lt b c = true.
Proof.
  intros Ha Hb Hc H. apply float_lt_rank in H; [|done..].
  destruct (rank_lt_negtrans _ (float_rank b) _ H); [left|right];
    by apply float_lt_rank.
Qed.

Lemma float_not_lt_le a b :
  float_is_nan a = false -> float_is_nan b = false ->
  float_lt a b = false -> float_le b a = true.
Proof.
  intros Ha Hb H. apply float_le_rank; [done..|].
  intros H'. apply float_lt_rank in H'; [|done..]. congruence.
Qed.

(** ** The insertion sort: permutation, order, stability *)

Section InsertionSortFacts.
Context {A : Type} (lt : A -> A -> bool) (P : A -> Prop).
Hypothesis lt_asym : forall a b, P a -> P b -> lt a b = true -> lt b a = false.
Hypothesis lt_negtrans : forall a b c, P a -> P b -> P c ->
  lt a c = true -> lt a b = true \/ lt b c = true.

Lemma insert_by_Permutation x l : insert_by lt x l ≡ₚ x :: l.
Proof.
  induction l as [|y l IH]; [done|]. cbn.
  destruct (lt y x); [|done]. rewrite IH. apply Permutation_swap.
Qed.

Lemma isort_by_Permutation l : isort_by lt l ≡ₚ l.
Proof.
  induction l as [|x l IH]; [done|]. cbn.
  by rewrite insert_by_Permutation, IH.
Qed.

Lemma sort_desc_by_Permutation l : sort_desc_by lt l ≡ₚ l.
Proof.
  unfold sort_desc_by.
  by rewrite reverse_Permutation, isort_by_Permutation, reverse_Permutation.
Qed.

Lemma insert_by_sorted x l :
  P x -> Forall P l ->
  StronglySorted (fun a b => lt b a = false) l ->
  StronglySorted (fun a b => lt b a = false) (insert_by lt x l).
Proof.
  intros Hx Hl Hs. induction Hs as [|y l Hs IH Hy]; cbn.
  - repeat constructor.
  - apply Forall_cons in Hl as [Py Pl]. destruct (lt y x) eqn:E.
    + constructor; [by apply IH|].
      rewrite (insert_by_Permutation x l). constructor; [|done].
      by apply lt_asym.
    + constructor; [by constructor|]. constructor; [done|].
      rewrite Forall_forall in Hy, Pl. apply Forall_forall. intros z Hz.
      apply not_true_is_false. intros Hzx.
      destruct (lt_negtrans z y x) as [H|H]; auto.
      * rewrite (Hy z Hz) in H. discriminate.
      * congruence.
Qed.

Lemma isort_by_sorted l :
  Forall P l -> StronglySorted (fun a b => lt b a = false) (isort_by lt l).
Proof.
  induction 1 as [|x l Hx Hl IH]; cbn; [constructor|].
  apply insert_by_sorted; [done| |done].
  by rewrite isort_by_Permutation.
Qed.

Lemma StronglySorted_reverse (R : relation A) l :
  StronglySorted R l -> StronglySorted (flip R) (reverse l).
Proof.
  induction 1 as [|x l Hs IH Hx]; [constructor|].
  rewrite reverse_cons. apply StronglySorted_app_2; [|done|repeat constructor].
  intros x1 x2 H1 ->%list_elem_of_singleton. unfold flip.
  rewrite Forall_forall in Hx. apply Hx. by apply elem_of_reverse.
Qed.

Lemma sort_desc_by_sorted l :
  Forall P l -> StronglySorted (fun a b => lt a b = false) (sort_desc_by lt l).
Proof.
  intros Hl. unfold sort_desc_by.
  apply (StronglySorted_reverse (fun a b => lt b a = false)).
  apply isort_by_sorted. by rewrite reverse_Permutation.
Qed.

Lemma insert_by_tied k x l :
  P k -> P x -> Forall P l ->
  filter (tied lt k) (insert_by lt x l) = filter (tied lt k) (x :: l).
Proof.
  intros Hk Hx Hl. induction Hl as [|y l Hy Hl IH]; [done|]. cbn.
  destruct (lt y x) eqn:E; [|done].
  rewrite filter_cons, IH, !filter_cons.
  destruct (decide (tied lt k y)) as [[Hky Hyk]|]; [|done].
  destruct (decide (tied lt k x)) as [[Hkx Hxk]|]; [|done].
  destruct (lt_negtrans y k x) as [H|H]; auto; congruence.
Qed.

Lemma isort_by_stable k l :
  P k -> Forall P l ->
  filter (tied lt k) (isort_by lt l) = filter (tied lt k) l.
Proof.
  intros Hk. induction 1 as [|x l Hx Hl IH]; [done|]. cbn.
  rewrite insert_by_tied; [|done..|by rewrite isort_by_Permutation].
  by rewrite !filter_cons, IH.
Qed.

Lemma sort_desc_by_stable k l :
  P k -> Forall P l ->
  filter (tied lt k) (sort_desc_by lt l) = filter (tied lt k) l.
Proof.
  intros Hk Hl. unfold sort_desc_by.
  rewrite filter_reverse, isort_by_stable, filter_reverse, reverse_involutive;
    [done..|by rewrite reverse_Permutation].
Qed.
End InsertionSortFacts.

(** ** [sorted] on float keys *)

Lemma insort_keyed {A B} (key : B -> float) (val : B -> A) x l :
  insort (VFloat (key x), val x) ((fun y => (VFloat (key y), val y)) <$> l) =
  Return ((fun y => (VFloat (key y), val y))
            <$> insert_by (fun a b => float_lt (key a) (key b)) x l).
Proof.
  induction l as [|y l IH]; [done|].
  cbn [fmap list_fmap insort insert_by fst py_lt mbind outcome_bind].
  destruct (float_lt (key y) (key x)); [|done].
  change (list_fmap _ _ ?f l) with (f <$> l).
  by rewrite IH.
Qed.

Lemma list_sort_keyed {A B} (key : B -> float) (val : B -> A) l :
  list_sort ((fun y => (VFloat (key y), val y)) <$> l) =
  Return ((fun y => (VFloat (key y), val y))
            <$> isort_by (fun a b => float_lt (key a) (key b)) l).
Proof.
  induction l as [|x l IH]; [done|].
  cbn [fmap list_fmap list_sort isort_by].
  change (list_fmap _ _ ?f l) with (f <$> l).
  rewrite IH. cbn [mbind outcome_bind]. apply insort_keyed.
Qed.

Lemma insert_by_fmap {A B} (f : B -> A) (lt : A -> A -> bool) x l :
  insert_by lt (f x) (f <$> l) =
  f <$> insert_by (fun a b => lt (f a) (f b)) x l.
Proof.
  induction l as [|y l IH]; [done|]. cbn.
  destruct (lt (f y) (f x)); [|done]. cbn. f_equal. apply IH.
Qed.

Lemma isort_by_fmap {A B} (f : B -> A) (lt : A -> A -> bool) l :
  isort_by lt (f <$> l) = f <$> isort_by (fun a b => lt (f a) (f b)) l.
Proof.
  induction l as [|x l IH]; [done|]. cbn.
  change (list_fmap _ _ f l) with (f <$> l).
  by rewrite IH, insert_by_fmap.
Qed.

Lemma sort_desc_by_fmap {A B} (f : B -> A) (lt : A -> A -> bool) l :
  sort_desc_by lt (f <$> l) = f <$> sort_desc_by (fun a b => lt (f a) (f b)) l.
Proof.
  unfold sort_desc_by. by rewrite <- fmap_reverse, isort_by_fmap, fmap_reverse.
Qed.

Lemma Location_fields_time l :
  Location_fields l !! "time" = Some (VFloat (Location.time l)).
Proof. unfold Location_fields. by simplify_map_eq. Qed.

Lemma getitem_time st r l :
  heap st !! r = Some (Location_fields l) ->
  getitem r "time" st = (Return (VFloat (Location.time l)), st).
Proof.
  intros H. unfold getitem. rewrite bind_run, (deref_Some _ _ _ H).
  by rewrite Location_fields_time.
Qed.

Lemma keyed_time st (items : list (ref * Location.t)) :
  Forall (fun it => heap st !! it.1 = Some (Location_fields it.2)) items ->
  keyed (fun x => getitem x "time") (items.*1) st =
  (Return ((fun it => (VFloat (Location.time it.2), it.1)) <$> items), st).
Proof.
  induction 1 as [|it items Hit _ IH]; [done|].
  cbn [fmap list_fmap keyed].
  change (list_fmap _ _ ?f items) with (f <$> items).
  rewrite bind_run, (getitem_time _ _ _ Hit), bind_run, IH. done.
Qed.

Lemma sorted_by_time st (items : list (ref * Location.t)) :
  Forall (fun it => heap st !! it.1 = Some (Location_fields it.2)) items ->
  sorted (items.*1) (fun x => getitem x "time") true st =
  (Return ((sort_desc_by (fun a b => time_lt a.2 b.2) items).*1), st).
Proof.
  intros H. unfold sorted. rewrite bind_run, (keyed_time _ _ H), bind_run.
  unfold lift. rewrite <- fmap_reverse, list_sort_keyed.
  unfold sort_desc_by, time_lt. cbn [mret M_ret].
  rewrite <- fmap_reverse, <- list_fmap_compose. done.
Qed.

(** ** Computations that keep the stored objects *)

Lemma preserved_refl st : preserved st st.
Proof. by repeat split. Qed.

Lemma preserved_trans st1 st2 st3 :
  preserved st1 st2 -> preserved st2 st3 -> preserved st1 st3.
Proof.
  intros (H1 & H2 & H3 & H4 & H5) (G1 & G2 & G3 & G4 & G5).
  repeat split; [by etrans|congruence..].
Qed.

Lemma frames_bind {A B} (m : M A) (k : A -> M B) :
  frames m -> (forall a, frames (k a)) -> frames (m ≫= k).
Proof.
  intros Hm Hk st. rewrite bind_run. specialize (Hm st).
  destruct (m st) as [[a|e] st1]; [|done].
  eapply preserved_trans; [exact Hm|apply Hk].
Qed.

Lemma frames_read {A} (m : M A) : (forall st, (m st).2 = st) -> frames m.
Proof. intros H st. rewrite H. apply preserved_refl. Qed.

Lemma frames_ret {A} (a : A) : frames (mret a).
Proof. by apply frames_read. Qed.

Lemma frames_raise {A} e : frames (@raise A e).
Proof. by apply frames_read. Qed.

Lemma frames_lift {A} (o : outcome A) : frames (lift o).
Proof. by apply frames_read. Qed.

Lemma frames_gets {A} (f : state -> A) : frames (gets f).
Proof. by apply frames_read. Qed.

Lemma frames_deref r : frames (deref r).
Proof. apply frames_read. intros st. unfold deref. by destruct (heap st !! r). Qed.

Lemma frames_getitem r key : frames (getitem r key).
Proof.
  apply frames_bind; [apply frames_deref|]. intros d.
  destruct (d !! key); [apply frames_ret|apply frames_raise].
Qed.

Lemma frames_fromtimestamp t : frames (fromtimestamp t).
Proof. by apply frames_read. Qed.

Lemma frames_snapshot l : frames (snapshot l).
Proof.
  induction l as [|r l IH]; [apply frames_ret|].
  apply frames_bind; [apply frames_deref|]. intros d.
  apply frames_bind; [exact IH|]. intros ds. apply frames_ret.
Qed.

Lemma frames_keyed key l : (forall r, frames (key r)) -> frames (keyed key l).
Proof.
  intros Hkey. induction l as [|r l IH]; [apply frames_ret|].
  apply frames_bind; [apply Hkey|]. intros k.
  apply frames_bind; [exact IH|]. intros kl. apply frames_ret.
Qed.

Lemma frames_sorted l key reverse :
  (forall r, frames (key r)) -> frames (sorted l key reverse).
Proof.
  intros Hkey. apply frames_bind; [by apply frames_keyed|]. intros kl.
  apply frames_bind; [apply frames_lift|]. intros s. apply frames_ret.
Qed.

(** The copy is a new object: writing to it leaves every object that
    existed before as it was. *)
Lemma frames_copy_setitem {A} r key v (k : ref -> M A) :
  (forall c, frames (k c)) ->
  frames (loc_copy ← dict_copy r; setitem loc_copy key v;; k loc_copy).
Proof.
  intros Hk st. rewrite bind_run. unfold dict_copy. rewrite bind_run.
  unfold deref at 1. destruct (heap st !! r) as [d|] eqn:Hr;
    [|apply preserved_refl].
  cbn [new_dict]. set (c := fresh (dom (heap st))).
  rewrite bind_run. unfold setitem. rewrite bind_run.
  rewrite (deref_Some _ c d); [|apply lookup_insert_eq].
  cbn [modify set_heap heap].
  eapply preserved_trans; [|apply Hk].
  repeat split. cbn [heap].
  rewrite insert_insert_eq. apply insert_subseteq, fresh_heap_None.
Qed.

Lemma frames_get_locations_loop sorted_locations :
  forall converted, frames (get_locations_loop sorted_locations converted).
Proof.
  induction sorted_locations as [|loc rest IH]; intros converted;
    [apply frames_ret|].
  cbn [get_locations_loop].
  apply frames_bind; [apply frames_getitem|]. intros t.
  apply frames_bind; [apply frames_lift|]. intros secs.
  apply frames_bind; [apply frames_fromtimestamp|]. intros dt.
  apply frames_copy_setitem. intros c. apply IH.
Qed.

Lemma frames_get_locations : frames get_locations.
Proof.
  apply frames_bind; [apply frames_gets|]. intros locations.
  apply frames_bind; [apply frames_sorted; intros r; apply frames_getitem|].
  intros s.
  apply frames_bind; [apply frames_get_locations_loop|]. intros converted.
  apply frames_snapshot.
Qed.

(** C8: [get_locations] leaves the stored locations as they were, whether it
    returns or raises: [LOCATIONS] is the same list of the same objects, every
    object that existed keeps its items (the numeric [time] with them), so
    the list denotes the same records in the same order; the books and the
    files are untouched as well. *)
Theorem get_locations_keeps_stored_records st :
  let st' := (get_locations st).2 in
  LOCATIONS st' = LOCATIONS st /\
  (forall r record, heap st !! r = Some record -> heap st' !! r = Some record) /\
  (forall locations,
     Forall2 (fun r d => heap st !! r = Some d) (LOCATIONS st) locations ->
     Forall2 (fun r d => heap st' !! r = Some d) (LOCATIONS st') locations) /\
  BOOKS st' = BOOKS st /\
  files st' = files st.
Proof.
  destruct (frames_get_locations st) as (Hh & Hb & Hl & Hf & _).
  cbn zeta. split; [done|]. split; [|split; [|done]].
  - intros r record Hr. by eapply lookup_weaken.
  - intros locations H. rewrite Hl. by eapply Forall2_heap_weaken.
Qed.

(** ** Running [get_locations] *)

Lemma py_truediv_1000 t :
  py_truediv (VFloat t) (VFloat (float_of_Z 1000)) =
  Return (VFloat (float_truediv t (float_of_Z 1000))).
Proof. reflexivity. Qed.

Lemma converted_inv tz l d :
  converted tz l = Return d ->
  exists dt,
    datetime_fromtimestamp tz
      (VFloat (float_truediv (Location.time l) (float_of_Z 1000))) = Return dt /\
    d = <["time" := VStr (isoformat dt)]> (Location_fields l).
Proof.
  unfold converted. destruct (datetime_fromtimestamp _ _) as [dt|e]; [|done].
  intros [= <-]. by exists dt.
Qed.

Lemma copy_setitem_run {A} st r d key v (k : ref -> M A) :
  heap st !! r = Some d ->
  (loc_copy ← dict_copy r; setitem loc_copy key v;; k loc_copy) st =
  k (fresh (dom (heap st)))
    (set_heap (<[fresh (dom (heap st)) := <[key := v]> d]> (heap st)) st).
Proof.
  intros Hr. rewrite bind_run. unfold dict_copy.
  rewrite bind_run, (deref_Some _ _ _ Hr). cbn [new_dict].
  rewrite bind_run. unfold setitem.
  rewrite bind_run, (deref_Some _ _ d); [|apply lookup_insert_eq].
  cbn [modify]. unfold set_heap at 2 3. cbn [heap]. rewrite insert_insert_eq.
  reflexivity.
Qed.

Lemma get_locations_loop_run (items : list (ref * Location.t)) :
  forall st acc outs,
  Forall (fun it => heap st !! it.1 = Some (Location_fields it.2)) items ->
  Forall2 (fun it d => converted (utcoffset st) it.2 = Return d) items outs ->
  exists new st',
    get_locations_loop (items.*1) acc st = (Return (acc ++ new), st') /\
    preserved st st' /\
    Forall2 (fun r d => heap st' !! r = Some d) new outs.
Proof.
  induction items as [|[r l] items IH]; intros st acc outs Hst Hconv.
  - apply Forall2_nil_inv_l in Hconv as ->.
    exists [], st. cbn. rewrite app_nil_r.
    split; [done|]. split; [apply preserved_refl|constructor].
  - apply Forall2_cons_inv_l in Hconv as (d & outs' & Hd & Hconv & ->).
    apply Forall_cons in Hst as [Hr Hst]. cbn [fst snd] in Hr, Hd.
    apply converted_inv in Hd as (dt & Hdt & ->).
    cbn [fmap list_fmap fst get_locations_loop].
    change (list_fmap _ _ fst items) with (items.*1).
    rewrite bind_run, (getitem_time _ _ _ Hr).
    rewrite bind_run. unfold lift at 1. rewrite py_truediv_1000.
    rewrite bind_run. unfold fromtimestamp at 1. rewrite Hdt.
    rewrite (copy_setitem_run _ _ _ _ _ _ Hr).
    set (c := fresh (dom (heap st))).
    set (st1 := set_heap _ st).
    assert (Hsub : heap st ⊆ heap st1).
    { apply insert_subseteq, fresh_heap_None. }
    destruct (IH st1 (acc ++ [c]) outs') as (new & st' & Hrun & Hpres & Hnew).
    { eapply Forall_impl; [exact Hst|]. intros it Hit. cbn in *.
      by eapply lookup_weaken. }
    { done. }
    exists (c :: new), st'. rewrite Hrun, <- app_assoc.
    split; [done|]. split.
    + eapply preserved_trans; [|exact Hpres]. by repeat split.
    + constructor; [|done]. destruct Hpres as [Hh _].
      eapply lookup_weaken; [|exact Hh]. apply lookup_insert_eq.
Qed.

Lemma get_locations_run st (items : list (ref * Location.t)) outs :
  LOCATIONS st = items.*1 ->
  Forall (fun it => heap st !! it.1 = Some (Location_fields it.2)) items ->
  Forall2 (fun l d => converted (utcoffset st) l = Return d)
          (sort_desc_by time_lt (items.*2)) outs ->
  exists st', get_locations st = (Return outs, st').
Proof.
  intros HL Hst Hconv. unfold get_locations.
  rewrite bind_run. cbn [gets]. rewrite HL.
  rewrite bind_run, (sorted_by_time _ _ Hst).
  set (sitems := sort_desc_by (fun a b => time_lt a.2 b.2) items).
  assert (Hperm : sitems ≡ₚ items) by apply sort_desc_by_Permutation.
  destruct (get_locations_loop_run sitems st [] outs)
    as (new & st' & Hrun & Hpres & Hnew).
  { by rewrite Hperm. }
  { unfold sitems.
    rewrite (sort_desc_by_fmap snd time_lt) in Hconv.
    by apply Forall2_fmap_l in Hconv. }
  rewrite bind_run, Hrun. cbn [app].
  exists st'. by apply snapshot_Forall2.
Qed.

(** ** The calendar *)

Lemma range_all_spec check k : forall lo x,
  range_all check k lo = true -> lo <= x < lo + 2 ^ Z.of_nat k ->
  check x = true.
Proof.
  induction k as [|k IH]; intros lo x Hall Hx.
  - cbn in *. by replace x with lo by lia.
  - cbn [range_all] in Hall. apply andb_prop in Hall as [H1 H2].
    rewrite Nat2Z.inj_succ, Z.pow_succ_r in Hx by lia.
    destruct (Z.lt_ge_cases x (lo + 2 ^ Z.of_nat k)).
    + apply (IH lo); [done|lia].
    + apply (IH (lo + 2 ^ Z.of_nat k)); [done|lia].
Qed.

Lemma doe_roundtrip_all doe : 0 <= doe < 146097 -> doe_roundtrip doe = true.
Proof.
  intros H.
  assert (Hall : range_all doe_roundtrip 18 0 = true)
    by (vm_compute; reflexivity).
  apply (range_all_spec _ _ _ doe) in Hall; [done|].
  change (2 ^ Z.of_nat 18) with 262144. lia.
Qed.

Lemma days_from_civil_from_days z :
  let '(y, m, d) := civil_from_days z in days_from_civil y m d = z.
Proof.
  unfold civil_from_days.
  set (z' := z + 719468). set (era := z' / 146097).
  set (doe := z' - era * 146097).
  assert (Hdoe : 0 <= doe < 146097).
  { unfold doe, era. pose proof (Z.mod_pos_bound z' 146097).
    rewrite (Z.mod_eq z' 146097) in H by lia. lia. }
  pose proof (doe_roundtrip_all doe Hdoe) as Hc. unfold doe_roundtrip in Hc.
  destruct (Z.leb_spec 146097 doe); [lia|]. cbn [orb] in Hc.
  set (yoe := (doe - doe / 1460 + doe / 36524 - doe / 146096) / 365) in *.
  set (doy := doe - (365 * yoe + yoe / 4 - yoe / 100)) in *.
  set (mp := (5 * doy + 2) / 153) in *.
  set (d := doy - (153 * mp + 2) / 5 + 1) in *.
  set (m := if mp <? 10 then mp + 3 else mp - 9) in *.
  apply andb_prop in Hc as [Hc Heq]. apply andb_prop in Hc as [H0 H400].
  apply Z.leb_le in H0. apply Z.ltb_lt in H400. apply Z.eqb_eq in Heq.
  unfold days_from_civil.
  assert (Hy : (if m <=? 2
                then (if m <=? 2 then yoe + era * 400 + 1 else yoe + era * 400) - 1
                else (if m <=? 2 then yoe + era * 400 + 1 else yoe + era * 400))
               = yoe + era * 400) by (destruct (m <=? 2); lia).
  rewrite Hy.
  assert (Hera : (yoe + era * 400) / 400 = era).
  { symmetry. apply (Z.div_unique _ _ era yoe); lia. }
  rewrite Hera.
  replace (yoe + era * 400 - era * 400) with yoe by lia.
  unfold z' in doe. lia.
Qed.

(** ** The outcome of [get_locations] *)

Lemma converted_not_nan tz l d :
  converted tz l = Return d -> float_is_nan (Location.time l) = false.
Proof.
  unfold converted. by destruct (Location.time l).
Qed.

Lemma converted_cases tz (ls : list Location.t) :
  (exists outs, Forall2 (fun l d => converted tz l = Return d) ls outs) \/
  Exists (fun l => exists e, converted tz l = Raise e) ls.
Proof.
  induction ls as [|l ls [[outs IH]|IH]].
  - left. by exists [].
  - destruct (converted tz l) as [d|e] eqn:E.
    + left. exists (d :: outs). by constructor.
    + right. left. by exists e.
  - right. by right.
Qed.

Lemma get_locations_loop_raises (items : list (ref * Location.t)) :
  forall st acc,
  Forall (fun it => heap st !! it.1 = Some (Location_fields it.2)) items ->
  Exists (fun it => exists e, converted (utcoffset st) it.2 = Raise e) items ->
  exists e st', get_locations_loop (items.*1) acc st = (Raise e, st').
Proof.
  induction items as [|[r l] items IH]; intros st acc Hst Hex.
  - by apply Exists_nil in Hex.
  - apply Forall_cons in Hst as [Hr Hst]. cbn [fst snd] in Hr.
    cbn [fmap list_fmap fst get_locations_loop].
    change (list_fmap _ _ fst items) with (items.*1).
    rewrite bind_run, (getitem_time _ _ _ Hr).
    rewrite bind_run. unfold lift at 1. rewrite py_truediv_1000.
    rewrite bind_run. unfold fromtimestamp at 1.
    destruct (datetime_fromtimestamp (utcoffset st) _) as [dt|e] eqn:Hdt;
      [|by eauto].
    rewrite (copy_setitem_run _ _ _ _ _ _ Hr).
    apply IH.
    + eapply Forall_impl; [exact Hst|]. intros it Hit. cbn in *.
      eapply lookup_weaken; [exact Hit|].
      apply insert_subseteq, fresh_heap_None.
    + apply Exists_cons in Hex as [(e & He)|Hex]; [|done].
      cbn [snd] in He. unfold converted in He. rewrite Hdt in He. done.
Qed.

Lemma represents_items st books (ls : list Location.t) :
  represents st books (Location_fields <$> ls) ->
  exists items : list (ref * Location.t),
    LOCATIONS st = items.*1 /\ items.*2 = ls /\
    Forall (fun it => heap st !! it.1 = Some (Location_fields it.2)) items.
Proof.
  intros [_ Hl]. apply Forall2_fmap_r in Hl.
  induction Hl as [|r l refs ls Hr _ (items & H1 & H2 & H3)].
  - by exists [].
  - exists ((r, l) :: items). cbn. rewrite H1, H2. split; [done|].
    split; [done|]. by constructor.
Qed.

(** What [get_locations] does on stored location records: it returns the
    conversions of the records in sorted order, or some record does not
    convert and it raises. *)
Lemma get_locations_cases st books (ls : list Location.t) :
  represents st books (Location_fields <$> ls) ->
  (exists outs st',
     Forall2 (fun l d => converted (utcoffset st) l = Return d)
             (sort_desc_by time_lt ls) outs /\
     get_locations st = (Return outs, st')) \/
  (Exists (fun l => exists e, converted (utcoffset st) l = Raise e) ls /\
   exists e st', get_locations st = (Raise e, st')).
Proof.
  intros Hrep.
  destruct (represents_items _ _ _ Hrep) as (items & HL & Hls & Hst).
  destruct (converted_cases (utcoffset st) (sort_desc_by time_lt ls))
    as [[outs Houts]|Hex].
  - left. exists outs. rewrite <- Hls in Houts.
    destruct (get_locations_run st items outs HL Hst Houts) as [st' Hrun].
    exists st'. split; [by rewrite <- Hls|done].
  - right. split.
    { apply Exists_exists in Hex as (l & Hin & He). apply Exists_exists.
      exists l. split; [|done].
      by rewrite <- (sort_desc_by_Permutation time_lt ls). }
    unfold get_locations. rewrite bind_run. cbn [gets]. rewrite HL.
    rewrite bind_run, (sorted_by_time _ _ Hst).
    set (sitems := sort_desc_by (fun a b => time_lt a.2 b.2) items).
    assert (Hperm : sitems ≡ₚ items) by apply sort_desc_by_Permutation.
    destruct (get_locations_loop_raises sitems st []) as (e & st' & Hrun).
    { by rewrite Hperm. }
    { unfold sitems. rewrite <- Hls, (sort_desc_by_fmap snd time_lt) in Hex.
      apply Exists_exists in Hex as (l & Hin & He).
      apply list_elem_of_fmap in Hin as (it & -> & Hit).
      apply Exists_exists. by exists it. }
    exists e, st'. by rewrite bind_run, Hrun.
Qed.

(** ** The instant of a converted timestamp *)

Lemma fromtimestamp_instant tz x dt :
  datetime_fromtimestamp tz (VFloat x) = Return dt ->
  exists timet us,
    double_to_timeval x = Return (timet, us) /\
    datetime_micros (tz timet) dt = timet * 1000000 + us.
Proof.
  unfold datetime_fromtimestamp.
  destruct (double_to_timeval x) as [[timet us]|e]; [|done].
  cbn [mbind outcome_bind].
  set (local := timet + tz timet).
  pose proof (days_from_civil_from_days (local / 86400)) as Hrt.
  destruct (civil_from_days (local / 86400)) as [[y m] dd].
  destruct (_ && _); [|done]. destruct (_ && _); [|done].
  intros [= <-]. exists timet, us. split; [done|].
  unfold datetime_micros.
  cbn [year month day hour minute second microsecond]. rewrite Hrt.
  assert (H : local / 86400 * 86400 + local mod 86400 / 3600 * 3600
              + local mod 86400 mod 3600 / 60 * 60
              + Z.min 59 (local mod 86400 mod 60) = local).
  { Z.div_mod_to_equations. lia. }
  unfold local in *. lia.
Qed.

Lemma each_add_location_run (ls : list Location.t) : forall st books locations,
  represents st books locations ->
  exists st',
    each add_location ls st = (Return tt, st') /\
    represents st' books (locations ++ (Location_fields <$> ls)) /\
    utcoffset st' = utcoffset st.
Proof.
  induction ls as [|l ls IH]; intros st books locations Hrep.
  - exists st. cbn. by rewrite app_nil_r.
  - cbn [each]. rewrite bind_run, (add_location_run _ _ _ _ Hrep).
    destruct (IH _ _ _ (represents_snoc_location st books locations
      (Location_fields l)
      (<[LOCATIONS_FILE := locations ++ [Location_fields l]]> (files st))
      (Book_default_book_id st) (entropy st) (draws st) (utcoffset st) Hrep))
      as (st' & Hrun & Hrep' & Htz).
    exists st'. split; [done|]. split; [|done].
    cbn [fmap list_fmap]. by rewrite <- app_assoc in Hrep'.
Qed.

Lemma StronglySorted_impl_Forall {A} (P : A -> Prop) (R R' : relation A) l :
  (forall a b, P a -> P b -> R a b -> R' a b) ->
  Forall P l -> StronglySorted R l -> StronglySorted R' l.
Proof.
  intros HR Hall Hs. induction Hs as [|a l Hs IH Ha]; [constructor|].
  apply Forall_cons in Hall as [Pa Pl]. constructor; [by apply IH|].
  rewrite Forall_forall in Ha, Pl. apply Forall_forall. intros b Hb.
  apply HR; [done|by apply Pl|by apply Ha].
Qed.

Lemma time_lt_sorted_desc (ls : list Location.t) :
  Forall (fun l => float_is_nan (Location.time l) = false) ls ->
  StronglySorted
    (fun a b => float_le (Location.time b) (Location.time a) = true)
    (sort_desc_by time_lt ls).
Proof.
  intros Hnan.
  pose proof (sort_desc_by_sorted time_lt
    (fun l => float_is_nan (Location.time l) = false)
    (fun a b Ha Hb => float_lt_asym _ _ Ha Hb)
    (fun a b c Ha Hb Hc => float_lt_negtrans _ _ _ Ha Hb Hc) ls Hnan) as Hs.
  eapply (StronglySorted_impl_Forall
            (fun l => float_is_nan (Location.time l) = false)); [|
    by rewrite sort_desc_by_Permutation | exact Hs].
  intros a b Pa Pb Hab. by apply float_not_lt_le.
Qed.

Lemma float_eq_tied a b :
  float_is_nan a = false -> float_is_nan b = false ->
  float_eq a b = true <-> float_lt b a = false /\ float_lt a b = false.
Proof.
  intros Ha Hb.
  destruct (SFcompare_rank a b Ha Hb) as (c & Hc & Hlt & Hgt).
  destruct (SFcompare_rank b a Hb Ha) as (c' & Hc' & Hlt' & Hgt').
  unfold float_eq, float_lt, SFeqb, SFltb. rewrite Hc, Hc'.
  destruct c, c'; try (split; [done|by intros []]); try done;
    exfalso; try (apply (rank_lt_asym (float_rank a) (float_rank b));
                  [by apply Hlt|by apply Hlt']);
    try (by assert (Eq = Gt) by (apply Hgt, Hlt'; done));
    try (by assert (Eq = Lt) by (apply Hlt, Hgt'; done));
    try (by assert (Eq = Gt) by (apply Hgt', Hlt; done));
    try (by assert (Eq = Lt) by (apply Hlt', Hgt; done));
    try (apply (rank_lt_asym (float_rank a) (float_rank b));
         [by apply Hgt'|by apply Hgt]).
Qed.

(** ** Locations, sorted and converted *)

Lemma converted_fields tz l d :
  converted tz l = Return d ->
  exists dt timet us,
    let secs := float_truediv (Location.time l) (float_of_Z 1000) in
    datetime_fromtimestamp tz (VFloat secs) = Return dt /\
    double_to_timeval secs = Return (timet, us) /\
    datetime_micros (tz timet) dt = timet * 1000000 + us /\
    d = {[ "time" := VStr (isoformat dt);
           "lat" := VFloat (Location.lat l);
           "lng" := VFloat (Location.lng l) ]}.
Proof.
  intros (dt & Hdt & ->)%converted_inv.
  destruct (fromtimestamp_instant _ _ _ Hdt) as (timet & us & Htv & Hinst).
  exists dt, timet, us. cbn zeta. split; [done|]. split; [done|].
  split; [done|]. unfold Location_fields. apply insert_insert_eq.
Qed.






(** With the three sample locations stored, UTC: the later time comes first,
    and the two locations with equal times follow in insertion order. *)
Example get_locations_example :
  (get_locations three_locations).1 =
  Return
    [ {[ "time" := VStr "2023-11-14T22:13:21";
         "lat" := VFloat (float_of_Z 3); "lng" := VFloat (float_of_Z 4) ]};
      {[ "time" := VStr "2023-11-14T22:13:20";
         "lat" := VFloat (float_of_Z 1); "lng" := VFloat (float_of_Z 2) ]};
      {[ "time" := VStr "2023-11-14T22:13:20";
         "lat" := VFloat (float_of_Z 5); "lng" := VFloat (float_of_Z 6) ]} ].
Proof. vm_compute. reflexivity. Qed.
